(** * The example training pipeline of polygnn_trainer (example.py)

    A shallow embedding of the script: its constants, the command-line
    device selector, the Morgan featurizer, the per-group orchestration
    (split, data preparation, hyperparameter search, ensemble training,
    evaluation) and the library routines it drives.  Floating-point values
    are carried as rationals: 0.25 * 50 = 12.5 is exact in binary floating
    point, and the float nearest to 0.2 is close enough to 1/5 for
    ceil(0.2 * n) to agree with the rational value for every table that fits
    in memory. *)

From Stdlib Require Import List ZArith QArith Qround String Ascii Bool Lia
  Permutation Arith Sorted.
Import ListNotations.

Local Open Scope string_scope.
Local Open Scope list_scope.
Local Open Scope Z_scope.

(** ** Python built-ins used by the script *)

(** [round(x)] with one argument: the nearest integer, a tie going to the
    even neighbour. *)
Definition py_round (x : Q) : Z :=
  let f := Qfloor x in
  match Qcompare (x - inject_Z f) (1 # 2) with
  | Lt => f
  | Gt => f + 1
  | Eq => if Z.even f then f else f + 1
  end.

(** [sorted(l)] on a list of [str]: a stable sort by code points. *)
Fixpoint insert_sorted (s : string) (l : list string) : list string :=
  match l with
  | [] => [s]
  | t :: l' => if String.ltb s t then s :: l else t :: insert_sorted s l'
  end.

Fixpoint sorted (l : list string) : list string :=
  match l with
  | [] => []
  | s :: l' => insert_sorted s (sorted l')
  end.

(** [s.replace(a, b)] for one-character [a] and [b]. *)
Fixpoint str_replace (a b : ascii) (s : string) : string :=
  match s with
  | EmptyString => EmptyString
  | String c s' =>
      String (if Ascii.eqb c a then b else c) (str_replace a b s')
  end.

(** [x in l] for a list of [str]. *)
Definition str_in (x : string) (l : list string) : bool :=
  existsb (String.eqb x) l.

(** ** Constants (lines 29-46) *)

Definition RANDOM_SEED : Z := 100.
Definition HP_EPOCHS : Z := 20.
Definition SUBMODEL_EPOCHS : Z := 100.
Definition N_FOLDS : Z := 3.
Definition HP_NCALLS : Z := 10.
Definition MAX_BATCH_SIZE : Z := 50.
Definition capacity_ls : list Z := [2; 3; 4; 5].
Definition weight_decay : Z := 0.
Definition PROPERTY_GROUPS : list (string * list string) :=
  [("electronic", ["Egc"; "Egb"; "Ea"; "Ei"])].
Definition N_FEATURES : Z := 512.
Definition OPT_CAPACITY : Z := 2.

(** ** Exceptions *)

Inductive exn : Type :=
| SystemExit (code : Z)          (* argparse rejecting the command line *)
| NameError (name : string)
| KeyError (label : Z)
| AssertionError
| ArgumentError                  (* Boost.Python, from an RDKit call *)
| InsufficientDataError
| TrainingDivergedError
| IndexError
| ConfigValidationError
| OtherError (what : string).

Inductive result (A : Type) : Type :=
| Ok (a : A)
| Raise (e : exn).
Arguments Ok {A} a.
Arguments Raise {A} e.

(** ** Device selection (lines 22-24 and 57-60) *)

(** The values [device] can be bound to: the plain string ["cpu"], or a
    [torch.device] built from a device name. *)
Inductive device : Type :=
| DevStr (name : string)
| TorchDevice (name : string).

Definition device_choices : list string := ["cpu"; "gpu"].
Definition device_default : string := "gpu".

(** [parser.parse_args()] restricted to the one option the parser declares:
    [given] is the value following [--device] on the command line, if any.
    A value outside [choices] makes argparse exit with status 2. *)
Definition parse_args (given : option string) : result string :=
  match given with
  | None => Ok device_default
  | Some v => if str_in v device_choices then Ok v else Raise (SystemExit 2)
  end.

(** The [if]/[elif] of lines 57-60.  No branch binds [device] for another
    value: the name stays unbound ([None]) and its first use raises
    [NameError]. *)
Definition choose_device (args_device : string) (cuda_is_available : bool)
  : option device :=
  if String.eqb args_device "cpu" then Some (DevStr "cpu")
  else if String.eqb args_device "gpu" then
    Some (TorchDevice (if cuda_is_available then "cuda" else "cpu"))
  else None.

(** Lines 22-24 followed by lines 57-60. *)
Definition select_device (given : option string) (cuda_is_available : bool)
  : result (option device) :=
  match parse_args given with
  | Ok a => Ok (choose_device a cuda_is_available)
  | Raise e => Raise e
  end.

Definition device_name (d : device) : string :=
  match d with DevStr n => n | TorchDevice n => n end.

(** ** Selector dimension and model input width (lines 94-104, 161, 219, 240) *)

Definition selector_dim_of (nprops : Z) : Z :=
  if nprops =? 1 then 0 else nprops.

Definition group_prop_cols (props : list string) : list string := sorted props.


(** The [input_dim] of the three places a model is built or loaded. *)
Definition search_input_dim (selector_dim : Z) : Z := N_FEATURES + selector_dim.
Definition ensemble_input_dim (selector_dim : Z) : Z := N_FEATURES + selector_dim.
Definition load_input_dim (selector_dim : Z) : Z := N_FEATURES + selector_dim.

(** ** Records of the dataset and feature tensors *)

(** [torch_geometric.data.Data(x=...)]: [x] is a float tensor, here the
    1 x nBits matrix produced by [np.expand_dims(fp, 0)]. *)
Record Data : Type := mkData { x_tensor : list (list Q) }.

(** One row of the dataframe: its index label and the columns the script
    reads or writes. *)
Record row : Type := mkRow {
  idx : Z;
  smiles_string : string;
  prop : string;
  value : Q;
  graph_feats : list (string * Q);
  data : option Data
}.

Definition set_graph_feats (g : list (string * Q)) (r : row) : row :=
  mkRow (idx r) (smiles_string r) (prop r) (value r) g (data r).

(** [df.loc[df.prop.isin(prop_cols), :]] *)
Definition rows_isin (prop_cols : list string) (df : list row) : list row :=
  filter (fun r => str_in (prop r) prop_cols) df.

(** [df.loc[labels, :]]: for each label in turn, the rows carrying it; a
    label carried by no row raises [KeyError]. *)
Fixpoint loc (df : list row) (labels : list Z) : result (list row) :=
  match labels with
  | [] => Ok []
  | l :: ls =>
      match filter (fun r => idx r =? l) df with
      | [] => Raise (KeyError l)
      | hit =>
          match loc df ls with
          | Ok rest => Ok (hit ++ rest)
          | Raise e => Raise e
          end
      end
  end.

(** ** Values handled by the hyperparameter search *)

Inductive pyval : Type :=
| PyInt (z : Z)
| PyFloat (q : Q).

Inductive activation : Type := leaky_relu.
Inductive loss : Type := sh_mse_loss.

(** The values of the dictionaries given to [HpConfig.set_values]. *)
Inductive hpval : Type :=
| HNum (v : pyval)
| HAct (a : activation).

Definition point : Type := list pyval.
Definition trial : Type := (point * Q)%type.

(** [skopt]'s [OptimizeResult]: the best point, its score and the trial log. *)
Record OptimizeResult : Type := mkOpt {
  opt_x : point;
  opt_fun : Q;
  x_iters : list point;
  func_vals : list Q
}.

(** [pt.models.MlpOut(input_dim=..., output_dim=..., hps=...)]: a model is
    identified by the arguments of its constructor. *)
Record MlpOut (H : Type) : Type := mkMlpOut {
  input_dim : Z;
  output_dim : Z;
  mlp_hps : H
}.
Arguments mkMlpOut {H}.
Arguments input_dim {H}.
Arguments output_dim {H}.
Arguments mlp_hps {H}.

(** [pt.train.trainConfig(hps=..., device=..., amp=..., multi_head=...,
    loss_obj=...)], with the [epochs] attribute assigned afterwards. *)
Record trainConfig (H : Type) : Type := mkTrainConfig {
  tc_hps : H;
  tc_device : device;
  tc_amp : bool;
  tc_multi_head : bool;
  tc_loss_obj : loss;
  tc_epochs : Z
}.
Arguments mkTrainConfig {H}.
Arguments tc_hps {H}.
Arguments tc_device {H}.
Arguments tc_amp {H}.
Arguments tc_multi_head {H}.
Arguments tc_loss_obj {H}.
Arguments tc_epochs {H}.

(** The keyword arguments of [pt.train.train_kfold_ensemble]
    ([submodel_trainer] is always [pt.train.train_submodel] and
    [augmented_featurizer] always [None]). *)
Record kfold_args (H S : Type) : Type := mkKfold {
  kf_dataframe : list row;
  kf_model_constructor : MlpOut H;
  kf_train_config : trainConfig H;
  kf_scaler_dict : S;
  kf_root_dir : string;
  kf_n_fold : Z;
  kf_random_seed : Z
}.
Arguments mkKfold {H S}.
Arguments kf_dataframe {H S}.
Arguments kf_model_constructor {H S}.
Arguments kf_train_config {H S}.
Arguments kf_scaler_dict {H S}.
Arguments kf_root_dir {H S}.
Arguments kf_n_fold {H S}.
Arguments kf_random_seed {H S}.

(** ** The collaborators of the script

    Everything the script imports and calls but does not define: RDKit, the
    numpy float routines, the random generator behind a [random_state], the
    sampling strategies of the optimizer, and the [polygnn_trainer] routines.
    Stateful routines take and return the state of the process and its
    environment ([world]: file system, global generators, accelerator). *)
Record Lib : Type := mkLib {
  world : Type;
  Mol : Type;
  HpConfig : Type;
  ScalerDict : Type;
  Ensemble : Type;
  rng : Type;
  (* rdkit *)
  MolFromSmiles : string -> option Mol;
  GetMorganFingerprintAsBitVect : Mol -> Z -> Z -> bool -> list bool;
  (* numpy floats *)
  np_log10 : Q -> Q;
  float_pow10 : Q -> Q;
  (* the generator created from an integer random_state *)
  rng_seed : Z -> rng;
  rng_next : rng -> nat * rng;
  (* optimizer strategies: warm-up sampling, surrogate and acquisition *)
  n_initial_points : nat;
  rvs : list (pyval * pyval) -> rng -> point * rng;
  ask : list (pyval * pyval) -> list trial -> rng -> point * rng;
  penalty : Q;
  (* polygnn_trainer and os *)
  HpConfig_new : HpConfig;
  set_values : HpConfig -> list (string * hpval) -> option HpConfig;
  seed_globals : Z -> world -> world;
  cuda_is_available : world -> bool;
  os_mkdir : string -> world -> result unit * world;
  pt_prepare_train :
    list row -> (string -> result Data) -> string ->
    world -> result (list row * ScalerDict) * world;
  pt_train_submodel :
    MlpOut HpConfig -> list (option Data) -> list (option Data) ->
    ScalerDict -> trainConfig HpConfig -> world -> result Q * world;
  pt_train_kfold_ensemble :
    kfold_args HpConfig ScalerDict -> world -> result unit * world;
  pt_load_ensemble :
    string -> device -> Z * Z -> world -> result Ensemble * world;
  pt_eval_ensemble :
    Ensemble -> string -> list row -> (string -> result Data) -> device ->
    bool -> world -> result (list Q * list Q * list Q * list Z) * world;
  pt_mt_print_metrics :
    list Q -> list Q -> list Z -> ScalerDict -> bool ->
    world -> result unit * world
}.

(** ** The Morgan featurizer (lines 78-85)

    [Chem.MolFromSmiles] returns [None] for a string it cannot parse, and the
    fingerprint call on [None] raises Boost.Python's [ArgumentError]; the
    function has no [try] and no test of [mol]. *)
Definition bit_to_float (b : bool) : Q := if b then 1%Q else 0%Q.

Definition morgan_featurizer (L : Lib) (smile : string) : result Data :=
  let smile := str_replace "*"%char "H"%char smile in
  match MolFromSmiles L smile with
  | None => Raise ArgumentError
  | Some mol =>
      let fp := GetMorganFingerprintAsBitVect L mol 2 N_FEATURES true in
      Ok (mkData [map bit_to_float fp])
  end.

(** ** Dataset splitting

    The routine behind [train_test_split] belongs to a library and is not
    under src/.  The spec (4.1, 8) asks for a split that is a pure function
    of the records, their order and the seed, label-stratified, with disjoint
    outputs whose union is the input, every class present in both outputs,
    and [InsufficientDataError] when that cannot be had. *)
Section Splitter.
Context (L : Lib).

(** The [k]-th element of [x :: l] (the last one when [k] is too large)
    and the list without it. *)
Fixpoint pick {A : Type} (k : nat) (x : A) (l : list A) : A * list A :=
  match k, l with
  | S k', y :: l' => let (z, r) := pick k' y l' in (z, x :: r)
  | _, _ => (x, l)
  end.

(** Modelled from the spec: the seeded reordering of DatasetSplitter.split
    (not under src/); each step moves one position, chosen by the generator,
    to the front. *)
Fixpoint shuffle_from (fuel : nat) (g : rng L) (l : list nat) : list nat :=
  match fuel, l with
  | S f, x :: l' =>
      let (r, g') := rng_next L g in
      let (z, rest) := pick (r mod S (List.length l')) x l' in
      z :: shuffle_from f g' rest
  | _, _ => l
  end.

Definition shuffle (g : rng L) (l : list nat) : list nat :=
  shuffle_from (List.length l) g l.

Definition label_at (labels : list string) (p : nat) : string :=
  nth p labels "".

Fixpoint insert_by_label (labels : list string) (p : nat) (l : list nat)
  : list nat :=
  match l with
  | [] => [p]
  | q :: l' =>
      if String.ltb (label_at labels q) (label_at labels p)
      then q :: insert_by_label labels p l'
      else p :: l
  end.

(** Modelled from the spec: the stratification of DatasetSplitter.split
    (not under src/); positions are grouped by class, keeping the shuffled
    order inside a class. *)
Definition group_by_label (labels : list string) (l : list nat) : list nat :=
  fold_right (insert_by_label labels) [] l.

(** Modelled from the spec: the stratified draw of DatasetSplitter.split
    (not under src/).  The [i]-th position of the grouped order goes to the
    test side when the running test quota [i * n_test / n] steps up at [i],
    so every class contributes its proportion. *)
Fixpoint draw (n n_test i : nat) (l : list nat) : list nat * list nat :=
  match l with
  | [] => ([], [])
  | p :: l' =>
      let (train, test) := draw n n_test (S i) l' in
      if (i * n_test / n <? S i * n_test / n)%nat
      then (train, p :: test)
      else (p :: train, test)
  end.

Definition class_in (labels : list string) (c : string) (side : list nat)
  : bool :=
  existsb (fun p => String.eqb (label_at labels p) c) side.

(** Modelled from the spec: the test share of DatasetSplitter.split (not
    under src/), [test_size] of the input rounded up to a whole record. *)
Definition test_count (n : nat) (test_size : Q) : nat :=
  Z.to_nat (Qceiling (test_size * inject_Z (Z.of_nat n))).

(** Modelled from the spec: DatasetSplitter.split on positions (not under
    src/).  A side that would be empty or a class missing from a side is an
    [InsufficientDataError]; the training side is the complement of the
    test side. *)
Definition split_positions (labels : list string) (test_size : Q)
  (random_state : Z) : result (list nat * list nat) :=
  let n := List.length labels in
  let n_test := test_count n test_size in
  if ((n_test =? 0) || (n <=? n_test))%nat then Raise InsufficientDataError
  else
    let order :=
      group_by_label labels (shuffle (rng_seed L random_state) (seq 0 n)) in
    let (train, test) := draw n n_test 0 order in
    if forallb (fun c => class_in labels c train && class_in labels c test)
         labels
    then Ok (train, test)
    else Raise InsufficientDataError.

Definition take_rows {A : Type} (rows : list A) (positions : list nat)
  : list A :=
  flat_map
    (fun p => match nth_error rows p with Some r => [r] | None => [] end)
    positions.

(** Modelled from the spec: DatasetSplitter.split, the routine behind
    [train_test_split] (not under src/): the rows at the training positions
    and the rows at the test positions. *)
Definition train_test_split {A : Type} (rows : list A) (test_size : Q)
  (stratify : list string) (random_state : Z) : result (list A * list A) :=
  if negb (List.length stratify =? List.length rows)%nat
  then Raise (OtherError "inconsistent numbers of samples")
  else
    match split_positions stratify test_size random_state with
    | Ok (train, test) => Ok (take_rows rows train, take_rows rows test)
    | Raise e => Raise e
    end.

End Splitter.

(** ** Effects: library calls, the world and exceptions *)
Section Effects.
Context (L : Lib).

(** One event per call of a library routine, with the arguments the script
    passes. *)
Inductive event : Type :=
| E_mkdir (path : string)
| E_train_test_split (rows : list row) (test_size : Q) (random_state : Z)
| E_prepare_train (df : list row) (root_dir : string)
| E_gp_minimize (dimensions : list (pyval * pyval)) (n_calls : Z)
    (random_state : Z)
| E_train_submodel (model : MlpOut (HpConfig L))
    (fit_pts val_pts : list (option Data)) (scaler_dict : ScalerDict L)
    (tc : trainConfig (HpConfig L))
| E_train_kfold_ensemble (a : kfold_args (HpConfig L) (ScalerDict L))
| E_load_ensemble (root_dir : string) (dev : device) (in_dim out_dim : Z)
| E_eval_ensemble (root_dir : string) (df : list row) (dev : device)
    (monte_carlo : bool)
| E_mt_print_metrics (scaler_dict : ScalerDict L) (inverse_transform : bool).

(** A computation runs from a world and yields a value or an exception, the
    world it leaves and the calls it made, in order. *)
Definition M (A : Type) : Type := world L -> result A * world L * list event.

Definition ret {A : Type} (a : A) : M A := fun w => (Ok a, w, []).

Definition raise {A : Type} (e : exn) : M A := fun w => (Raise e, w, []).

Definition lift {A : Type} (r : result A) : M A := fun w => (r, w, []).

Definition bind {A B : Type} (m : M A) (f : A -> M B) : M B :=
  fun w =>
    match m w with
    | (Ok a, w1, t1) =>
        match f a w1 with
        | (r, w2, t2) => (r, w2, t1 ++ t2)
        end
    | (Raise e, w1, t1) => (Raise e, w1, t1)
    end.

(** Record a call, then run it. *)
Definition logged {A : Type} (e : event) (m : M A) : M A :=
  fun w => match m w with (r, w', t) => (r, w', e :: t) end.

Definition call {A : Type} (e : event) (f : world L -> result A * world L)
  : M A :=
  logged e (fun w => let (r, w') := f w in (r, w', [])).

(** [try: m except TrainingDivergedError: fallback] *)
Definition on_diverged {A : Type} (m : M A) (fallback : A) : M A :=
  fun w =>
    match m w with
    | (Raise TrainingDivergedError, w1, t1) => (Ok fallback, w1, t1)
    | other => other
    end.

Definition py_assert (b : bool) : M unit :=
  if b then ret tt else raise AssertionError.

Definition use_device (dev : option device) : M device :=
  match dev with
  | Some d => ret d
  | None => raise (NameError "device")
  end.

Definition outcome {A : Type} (r : result A * world L * list event)
  : result A := fst (fst r).
Definition final_world {A : Type} (r : result A * world L * list event)
  : world L := snd (fst r).
Definition calls {A : Type} (r : result A * world L * list event)
  : list event := snd r.

End Effects.

Arguments ret {L A} a.
Arguments raise {L A} e.
Arguments lift {L A} r.
Arguments bind {L A B} m f.
Arguments logged {L A} e m.
Arguments call {L A} e f.
Arguments on_diverged {L A} m fallback.
Arguments py_assert {L} b.
Arguments use_device {L} dev.
Arguments outcome {L A} r.
Arguments final_world {L A} r.
Arguments calls {L A} r.

Declare Scope script_scope.
Delimit Scope script_scope with script.
Notation "x <- m ;; k" := (bind m (fun x => k))
  (at level 61, m at next level, right associativity) : script_scope.
Notation "' p <- m ;; k" := (bind m (fun v => let p := v in k))
  (at level 61, p pattern, m at next level, right associativity)
  : script_scope.
Notation "m ;;; k" := (bind m (fun _ => k))
  (at level 61, right associativity) : script_scope.
Local Open Scope script_scope.

Fixpoint for_each {L : Lib} {A : Type} (l : list A) (body : A -> M L unit)
  : M L unit :=
  match l with
  | [] => ret tt
  | a :: l' => body a ;;; for_each l' body
  end.

Arguments E_mkdir {L}.
Arguments E_train_test_split {L}.
Arguments E_prepare_train {L}.
Arguments E_gp_minimize {L}.
Arguments E_train_submodel {L}.
Arguments E_train_kfold_ensemble {L}.
Arguments E_load_ensemble {L}.
Arguments E_eval_ensemble {L}.
Arguments E_mt_print_metrics {L}.

(** ** The hyperparameter optimizer

    The routine behind [gp_minimize] belongs to a library and is not under
    src/; the spec describes it in 4.2. *)
Section Optimizer.
Context (L : Lib).

Definition to_Q (v : pyval) : Q :=
  match v with PyInt z => inject_Z z | PyFloat q => q end.

Definition Qclamp (lo hi q : Q) : Q :=
  if Qle_bool q lo then lo else if Qle_bool hi q then hi else q.

(** Modelled from the spec: the declared domains of the
    HyperparameterOptimizer (not under src/).  A pair of integers declares
    an integer range, any other pair a continuous range; a proposal is
    brought into the range. *)
Definition into_dim (d : pyval * pyval) (v : pyval) : pyval :=
  match d with
  | (PyInt lo, PyInt hi) =>
      PyInt (Z.max lo
               (Z.min hi (match v with PyInt z => z | PyFloat q => py_round q end)))
  | (lo, hi) => PyFloat (Qclamp (to_Q lo) (to_Q hi) (to_Q v))
  end.

(** Modelled from the spec: the box-constrained space of the
    HyperparameterOptimizer (not under src/); one coordinate per declared
    dimension, each in its range. *)
Fixpoint into_space (dims : list (pyval * pyval)) (raw : point) : point :=
  match dims with
  | [] => []
  | d :: ds => into_dim d (hd (fst d) raw) :: into_space ds (tl raw)
  end.

Definition Qmax (a b : Q) : Q := if Qle_bool a b then b else a.

(** Modelled from the spec: the score of a diverged trial in the
    HyperparameterOptimizer (not under src/), the worst observed score plus
    a penalty (the penalty alone while nothing has been observed). *)
Definition penalised (trials : list trial) : Q :=
  match trials with
  | [] => penalty L
  | t :: rest => (fold_left Qmax (map snd rest) (snd t) + penalty L)%Q
  end.

(** Modelled from the spec: the loop of the HyperparameterOptimizer (4.2,
    not under src/).  For a fixed budget of trials: while fewer trials than
    the warm-up count have been observed the next point comes from the
    seeded sampling strategy, afterwards from the surrogate and its
    acquisition function; the objective is evaluated at the point and the
    trial appended. *)
Fixpoint gp_loop (func : point -> M L Q) (dims : list (pyval * pyval))
  (budget : nat) (trials : list trial) (g : rng L) : M L (list trial) :=
  match budget with
  | O => ret trials
  | S k =>
      let (raw, g') :=
        if (List.length trials <? n_initial_points L)%nat
        then rvs L dims g
        else ask L dims trials g in
      let x := into_space dims raw in
      y <- on_diverged (func x) (penalised trials) ;;
      gp_loop func dims k (trials ++ [(x, y)]) g'
  end.

(** Modelled from the spec: the result of the HyperparameterOptimizer (not
    under src/), the earliest trial with the lowest observed score among
    [t :: rest]. *)
Fixpoint best (t : trial) (rest : list trial) : trial :=
  match rest with
  | [] => t
  | u :: rest' => best (if Qle_bool (snd t) (snd u) then t else u) rest'
  end.

(** Modelled from the spec: HyperparameterOptimizer, the routine behind
    [gp_minimize] (not under src/): run the budget of trials from a
    generator created from the seed and return the best observed trial with
    the trial log. *)
Definition gp_minimize (func : point -> M L Q)
  (dimensions : list (pyval * pyval)) (n_calls : Z) (random_state : Z)
  : M L OptimizeResult :=
  trials <- gp_loop func dimensions (Z.to_nat n_calls) []
              (rng_seed L random_state) ;;
  match trials with
  | [] => raise (OtherError "n_calls")
  | t :: rest =>
      let b := best t rest in
      ret (mkOpt (fst b) (snd b) (map fst trials) (map snd trials))
  end.

End Optimizer.

(** ** The script *)
Section Script.
Context (L : Lib).

(** [10 ** v] *)
Definition py_pow10 (v : pyval) : pyval :=
  match v with
  | PyFloat q => PyFloat (float_pow10 L q)
  | PyInt z =>
      if 0 <=? z then PyInt (10 ^ z) else PyFloat (float_pow10 L (inject_Z z))
  end.

(** [x[i]] *)
Definition getitem (x : point) (i : nat) : result pyval :=
  match nth_error x i with
  | Some v => Ok v
  | None => Raise IndexError
  end.

(** [set_values] either updates the configuration or rejects the dictionary
    with [ConfigValidationError]. *)
Definition checked (r : option (HpConfig L)) : result (HpConfig L) :=
  match r with
  | Some h => Ok h
  | None => Raise ConfigValidationError
  end.

(** Lines 140-149: the [HpConfig] built inside [obj_func]. *)
Definition obj_func_hps (x : point) : result (HpConfig L) :=
  match getitem x 0 with
  | Raise e => Raise e
  | Ok x0 =>
  match getitem x 1 with
  | Raise e => Raise e
  | Ok x1 =>
  match getitem x 2 with
  | Raise e => Raise e
  | Ok x2 =>
      checked
        (set_values L (HpConfig_new L)
           [ ("r_learn", HNum (py_pow10 x0));
             ("batch_size", HNum x1);
             ("dropout_pct", HNum x2);
             ("capacity", HNum (PyInt OPT_CAPACITY));
             ("activation", HAct leaky_relu) ])
  end end end.

(** Lines 189-198: the [HpConfig] built from the optimizer's result. *)
Definition optimal_hps_of (opt_obj : OptimizeResult) : result (HpConfig L) :=
  match getitem (opt_x opt_obj) 0 with
  | Raise e => Raise e
  | Ok x0 =>
  match getitem (opt_x opt_obj) 1 with
  | Raise e => Raise e
  | Ok x1 =>
  match getitem (opt_x opt_obj) 2 with
  | Raise e => Raise e
  | Ok x2 =>
      checked
        (set_values L (HpConfig_new L)
           [ ("r_learn", HNum (py_pow10 x0));
             ("batch_size", HNum x1);
             ("dropout_pct", HNum x2);
             ("capacity", HNum (PyInt OPT_CAPACITY));
             ("activation", HAct leaky_relu) ])
  end end end.

(** Lines 139-172. *)
Definition obj_func (dev : option device) (selector_dim : Z)
  (fit_pts val_pts : list (option Data)) (scaler_dict : ScalerDict L)
  (x : point) : M L Q :=
  hps <- lift (obj_func_hps x) ;;
  device <- use_device dev ;;
  let tc_search := mkTrainConfig hps device false false sh_mse_loss HP_EPOCHS in
  let model := mkMlpOut (search_input_dim selector_dim) 1 hps in
  val_rmse <-
    call (E_train_submodel model fit_pts val_pts scaler_dict tc_search)
      (pt_train_submodel L model fit_pts val_pts scaler_dict tc_search) ;;
  ret val_rmse.

(** Lines 175-179. *)
Definition hp_space : list (pyval * pyval) :=
  [ (PyFloat (np_log10 L (3 # 10000)), PyFloat (np_log10 L (3 # 100)));
    (PyInt (py_round ((1 # 4) * inject_Z MAX_BATCH_SIZE)), PyInt MAX_BATCH_SIZE);
    (PyInt 0, PyFloat (1 # 2)) ].

(** The split as the script calls it: [test_size=0.2], stratified on the
    [prop] column, [random_state=RANDOM_SEED]. *)
Definition split_call (df : list row) : M L (list row * list row) :=
  logged (E_train_test_split df (1 # 5) RANDOM_SEED)
    (lift (train_test_split L df (1 # 5) (map prop df) RANDOM_SEED)).

(** Lines 127-199: the hyperparameter search of one group. *)
Definition hp_search (dev : option device) (selector_dim : Z)
  (group_train_data : list row) (scaler_dict : ScalerDict L)
  : M L (OptimizeResult * HpConfig L) :=
  ' (group_fit_data, group_val_data) <- split_call group_train_data ;;
  let fit_pts := map data group_fit_data in
  let val_pts := map data group_val_data in
  opt_obj <-
    logged (E_gp_minimize hp_space HP_NCALLS RANDOM_SEED)
      (gp_minimize L (obj_func dev selector_dim fit_pts val_pts scaler_dict)
         hp_space HP_NCALLS RANDOM_SEED) ;;
  optimal_hps <- lift (optimal_hps_of opt_obj) ;;
  ret (opt_obj, optimal_hps).

(** Lines 204-260: ensemble training under the optimal configuration, then
    loading and evaluating the ensemble on the test rows of the group. *)
Definition train_and_evaluate (dev : option device) (selector_dim : Z)
  (root_dir : string) (prop_cols : list string) (test_data : list row)
  (group_train_data : list row) (scaler_dict : ScalerDict L)
  (optimal_hps : HpConfig L) : M L unit :=
  device <- use_device dev ;;
  let tc_ensemble :=
    mkTrainConfig optimal_hps device false false sh_mse_loss SUBMODEL_EPOCHS in
  let kwargs :=
    mkKfold group_train_data
      (mkMlpOut (ensemble_input_dim selector_dim) 1 optimal_hps)
      tc_ensemble scaler_dict root_dir N_FOLDS RANDOM_SEED in
  call (E_train_kfold_ensemble kwargs) (pt_train_kfold_ensemble L kwargs) ;;;
  ensemble <-
    call (E_load_ensemble root_dir device (load_input_dim selector_dim) 1)
      (pt_load_ensemble L root_dir device (load_input_dim selector_dim, 1)) ;;
  let group_test_data := rows_isin prop_cols test_data in
  ' (y, y_mean_hat, y_std_hat, selectors) <-
    call (E_eval_ensemble root_dir group_test_data device false)
      (pt_eval_ensemble L ensemble root_dir group_test_data
         (morgan_featurizer L) device false) ;;
  call (E_mt_print_metrics scaler_dict false)
    (pt_mt_print_metrics L y y_mean_hat selectors scaler_dict false).

(** Lines 94-260: the body of the loop over the property groups. *)
Definition run_group (dev : option device) (train_data test_data : list row)
  (group : string) (props : list string) : M L unit :=
  let prop_cols := sorted props in
  let nprops := Z.of_nat (List.length prop_cols) in
  let selector_dim := selector_dim_of nprops in
  let root_dir := ("example_models/" ++ group)%string in
  let group_train_data := rows_isin prop_cols train_data in
  let group_test_data := rows_isin prop_cols test_data in
  let group_train_inds := map idx group_train_data in
  let group_test_inds := map idx group_test_data in
  let group_data := group_train_data ++ group_test_data in
  ' (group_data, scaler_dict) <-
    call (E_prepare_train group_data root_dir)
      (pt_prepare_train L group_data (morgan_featurizer L) root_dir) ;;
  group_train_data <- lift (loc group_data group_train_inds) ;;
  group_test_data <- lift (loc group_data group_test_inds) ;;
  ' (opt_obj, optimal_hps) <-
    hp_search dev selector_dim group_train_data scaler_dict ;;
  train_and_evaluate dev selector_dim root_dir prop_cols test_data
    group_train_data scaler_dict optimal_hps.

(** Lines 69-75: the split of the whole dataset and the assertion on it. *)
Definition split_master (master_data : list row) : M L (list row * list row) :=
  ' (train_data, test_data) <- split_call master_data ;;
  py_assert (List.length test_data <? List.length train_data)%nat ;;;
  ret (train_data, test_data).

(** The whole script; [given] is the value of [--device] on the command line
    and [master_data] the table read from the sample file. *)
Definition main (given : option string) (master_data : list row) : M L unit :=
  args_device <- lift (parse_args given) ;;
  (fun w => (Ok tt, seed_globals L RANDOM_SEED w, [])) ;;;
  dev <- (fun w => (Ok (choose_device args_device (cuda_is_available L w)), w, [])) ;;
  let master_data := map (set_graph_feats []) master_data in
  ' (train_data, test_data) <- split_master master_data ;;
  call (E_mkdir "example_models/") (os_mkdir L "example_models/") ;;;
  for_each PROPERTY_GROUPS
    (fun g => run_group dev train_data test_data (fst g) (snd g)).

End Script.

(** ** A small concrete library and dataset

    Stand-ins for the collaborators, simple enough to run the script on: a
    parser that accepts the strings written in the SMILES alphabet, a
    fingerprint read off the string, a linear congruential generator, a
    sampling strategy driven by it, a min/max scaler fitted on whatever table
    [prepare_train] is given, and a trainer whose score depends on the batch
    size only. *)
Module Demo.

Definition smiles_alphabet : string := "CNOSPFHIBrclnos()[]=#+-@/\123456789%".

Fixpoint mem_char (c : ascii) (s : string) : bool :=
  match s with
  | EmptyString => false
  | String d s' => Ascii.eqb c d || mem_char c s'
  end.

Fixpoint all_chars (p : ascii -> bool) (s : string) : bool :=
  match s with
  | EmptyString => true
  | String c s' => p c && all_chars p s'
  end.

Definition parse (s : string) : option string :=
  match s with
  | EmptyString => None
  | _ => if all_chars (fun c => mem_char c smiles_alphabet) s
         then Some s else None
  end.

Definition fingerprint (m : string) (radius nBits : Z) (chiral : bool)
  : list bool :=
  map (fun i => (i mod S (String.length m) =? 0)%nat) (seq 0 (Z.to_nat nBits)).

Definition lcg_next (g : Z) : nat * Z :=
  let g' := (g * 1103515245 + 12345) mod 2147483648 in
  (Z.to_nat (g' / 65536), g').

Definition sample_dim (d : pyval * pyval) (r : nat) : pyval :=
  match d with
  | (PyInt lo, PyInt hi) => PyInt (lo + Z.of_nat r mod (hi - lo + 1))
  | (lo, hi) =>
      PyFloat (to_Q lo + (to_Q hi - to_Q lo) * (Z.of_nat (r mod 101) # 100))
  end.

Fixpoint sample (dims : list (pyval * pyval)) (g : Z) : point * Z :=
  match dims with
  | [] => ([], g)
  | d :: ds =>
      let (r, g1) := lcg_next g in
      let (rest, g2) := sample ds g1 in
      (sample_dim d r :: rest, g2)
  end.

(** Featurize every row, then fit one (min, max) pair per property on the
    values of the table. *)
Fixpoint featurize_rows (f : string -> result Data) (df : list row)
  : result (list row) :=
  match df with
  | [] => Ok []
  | r :: df' =>
      match f (smiles_string r) with
      | Raise e => Raise e
      | Ok d =>
          match featurize_rows f df' with
          | Raise e => Raise e
          | Ok rest =>
              Ok (mkRow (idx r) (smiles_string r) (prop r) (value r)
                    (graph_feats r) (Some d) :: rest)
          end
      end
  end.

Fixpoint fit_minmax (df : list row) : list (string * (Q * Q)) :=
  match df with
  | [] => []
  | r :: df' =>
      let fix upd (s : list (string * (Q * Q))) :=
        match s with
        | [] => [(prop r, (value r, value r))]
        | (p, (lo, hi)) :: s' =>
            if String.eqb p (prop r)
            then (p, (if Qle_bool (value r) lo then value r else lo,
                      if Qle_bool hi (value r) then value r else hi)) :: s'
            else (p, (lo, hi)) :: upd s'
        end in
      upd (fit_minmax df')
  end.

Definition prepare_train (df : list row) (f : string -> result Data)
  (root_dir : string) (w : nat)
  : result (list row * list (string * (Q * Q))) * nat :=
  match featurize_rows f df with
  | Raise e => (Raise e, S w)
  | Ok rows => (Ok (rows, fit_minmax df), S w)
  end.

Definition batch_of (h : list (string * hpval)) : Z :=
  match h with
  | _ :: (_, HNum (PyInt b)) :: _ => b
  | _ => 0
  end.

Definition train_submodel (model : MlpOut (list (string * hpval)))
  (fit_pts val_pts : list (option Data)) (sd : list (string * (Q * Q)))
  (tc : trainConfig (list (string * hpval))) (w : nat) : result Q * nat :=
  (Ok (Z.abs (batch_of (tc_hps tc) - 30) # 10), S w).

Definition lib : Lib :=
  mkLib nat string (list (string * hpval)) (list (string * (Q * Q))) Z Z
    parse fingerprint
    (fun q => if Qle_bool q (3 # 10000) then (-7 # 2)%Q else (-3 # 2)%Q)
    (fun q => if Qle_bool q (-5 # 2) then (1 # 1000)%Q else (1 # 100)%Q)
    (fun s => s) lcg_next
    10%nat sample (fun dims _ g => sample dims g) 1%Q
    [] (fun _ d => Some d)
    (fun _ w => w) (fun _ => false)
    (fun _ w => (Ok tt, S w))
    prepare_train train_submodel
    (fun _ w => (Ok tt, S w))
    (fun _ _ _ w => (Ok N_FOLDS, S w))
    (fun _ _ df _ _ _ w =>
       (Ok (map value df, map value df, map (fun _ => 0%Q) df, []), S w))
    (fun _ _ _ _ _ w => (Ok tt, S w)).

Definition mk (i : Z) (s p : string) (v : Q) : row := mkRow i s p v [] None.

(** Twenty records, five for each property of the "electronic" group. *)
Definition table : list row :=
  [ mk 0 "[*]CC[*]" "Egc" (61 # 10); mk 1 "[*]CC[*]" "Egb" (72 # 10);
    mk 2 "[*]CC[*]" "Ea" (5 # 10);   mk 3 "[*]CC[*]" "Ei" (90 # 10);
    mk 4 "[*]CO[*]" "Egc" (55 # 10); mk 5 "[*]CO[*]" "Egb" (68 # 10);
    mk 6 "[*]CO[*]" "Ea" (8 # 10);   mk 7 "[*]CO[*]" "Ei" (85 # 10);
    mk 8 "[*]CN[*]" "Egc" (47 # 10); mk 9 "[*]CN[*]" "Egb" (59 # 10);
    mk 10 "[*]CN[*]" "Ea" (11 # 10); mk 11 "[*]CN[*]" "Ei" (79 # 10);
    mk 12 "[*]CS[*]" "Egc" (39 # 10); mk 13 "[*]CS[*]" "Egb" (50 # 10);
    mk 14 "[*]CS[*]" "Ea" (19 # 10); mk 15 "[*]CS[*]" "Ei" (70 # 10);
    mk 16 "[*]C=C[*]" "Egc" (28 # 10); mk 17 "[*]C=C[*]" "Egb" (41 # 10);
    mk 18 "[*]C=C[*]" "Ea" (25 # 10); mk 19 "[*]C=C[*]" "Ei" (66 # 10) ].


(** The train/test sides of [table] under the script's split. *)
Definition split_table : result (list row * list row) :=
  Eval vm_compute in
    train_test_split lib table (1 # 5) (map prop table) RANDOM_SEED.

Definition train_rows : list row :=
  match split_table with Ok (a, _) => a | Raise _ => [] end.

Definition test_rows : list row :=
  match split_table with Ok (_, b) => b | Raise _ => [] end.

Definition electronic : list string := ["Egc"; "Egb"; "Ea"; "Ei"].

End Demo.

(** ** Observations on a run *)

(** Every call made by [m], from any world, satisfies [P]. *)
Definition emits {L : Lib} {A : Type} (P : event L -> Prop) (m : M L A)
  : Prop :=
  forall w, Forall P (calls (m w)).

Definition is_train_submodel {L : Lib} (e : event L) : bool :=
  match e with
  | E_train_submodel _ _ _ _ _ => true
  | _ => false
  end.

(** The number of submodel trainings among the calls. *)
Definition submodel_runs {L : Lib} (t : list (event L)) : nat :=
  List.length (filter is_train_submodel t).


(** The ensemble is trained and built under the configuration [h]. *)
Definition ensemble_config_is {L : Lib} (h : HpConfig L) (e : event L)
  : Prop :=
  match e with
  | E_train_kfold_ensemble a =>
      tc_hps (kf_train_config a) = h /\ mlp_hps (kf_model_constructor a) = h
  | _ => True
  end.

(** The trial budget given to the optimizer is [n]. *)
Definition budget_is {L : Lib} (n : Z) (e : event L) : Prop :=
  match e with
  | E_gp_minimize _ n_calls _ => n_calls = n
  | _ => True
  end.


(** The table [gd] is what the scalers are fitted on, and [sd] is the
    scaler dictionary every later stage receives. *)
Definition scaler_flow {L : Lib} (gd : list row) (sd : ScalerDict L)
  (e : event L) : Prop :=
  match e with
  | E_prepare_train df _ => df = gd
  | E_train_submodel _ _ _ scaler_dict _ => scaler_dict = sd
  | E_train_kfold_ensemble a => kf_scaler_dict a = sd
  | E_mt_print_metrics scaler_dict _ => scaler_dict = sd
  | _ => True
  end.

(** What an evaluation of the objective at [x] leaves among the calls [t]:
    the configuration of the point was built and one proxy model was trained
    under it. *)
Definition evaluated_at {L : Lib} (dev : option device) (sel : Z)
  (fit_pts val_pts : list (option Data)) (sd : ScalerDict L)
  (x : point) (t : list (event L)) : Prop :=
  exists h d,
    obj_func_hps L x = Ok h
    /\ dev = Some d
    /\ In (E_train_submodel (mkMlpOut (N_FEATURES + sel) 1 h) fit_pts val_pts sd
             (mkTrainConfig h d false false sh_mse_loss HP_EPOCHS)) t.

(** The batch size of a point lies in [lo, hi]. *)
Definition batch_within (lo hi : Z) (x : point) : Prop :=
  exists b, nth_error x 1 = Some (PyInt b) /\ lo <= b <= hi.

(** The reading of the scaler invariant that the fit sees training rows
    only: every table handed to [prepare_train] consists of rows of the
    training side, none of them a row of the test side. *)
Definition fitted_on_training_only {L : Lib} (train_data test_data : list row)
  (e : event L) : Prop :=
  match e with
  | E_prepare_train df _ =>
      forall r, In r df -> In r train_data /\ ~ In r test_data
  | _ => True
  end.


(** The routine an event is a call of. *)
Definition event_name {L : Lib} (e : event L) : string :=
  match e with
  | E_mkdir _ => "mkdir"
  | E_train_test_split _ _ _ => "train_test_split"
  | E_prepare_train _ _ => "prepare_train"
  | E_gp_minimize _ _ _ => "gp_minimize"
  | E_train_submodel _ _ _ _ _ => "train_submodel"
  | E_train_kfold_ensemble _ => "train_kfold_ensemble"
  | E_load_ensemble _ _ _ _ => "load_ensemble"
  | E_eval_ensemble _ _ _ _ => "eval_ensemble"
  | E_mt_print_metrics _ _ => "mt_print_metrics"
  end.

(** ** Further observations *)

(** The characters that stand for a chain end once the featurizer has
    rewritten the identifier. *)
Definition is_end_mark (c : ascii) : bool :=
  Ascii.eqb c "*"%char || Ascii.eqb c "H"%char.

(** Two identifiers that differ at most in writing an end as ["*"] or as
    ["H"]. *)
Fixpoint same_up_to_ends (s1 s2 : string) : bool :=
  match s1, s2 with
  | EmptyString, EmptyString => true
  | String c1 r1, String c2 r2 =>
      (Ascii.eqb c1 c2 || (is_end_mark c1 && is_end_mark c2))
      && same_up_to_ends r1 r2
  | _, _ => false
  end.

(** A few rows for trying selections on: three with distinct index labels,
    and one that repeats the label of the first. *)
Module Sample.

Definition r0 : row := mkRow 0 "[*]CC[*]" "Egc" (61 # 10) [] None.
Definition r1 : row := mkRow 1 "[*]CO[*]" "Egc" (55 # 10) [] None.
Definition r2 : row := mkRow 2 "[*]CN[*]" "Egb" (59 # 10) [] None.
Definition r0' : row := mkRow 0 "[*]CS[*]" "Egb" (50 # 10) [] None.

End Sample.

(** The directory of the models of a group, wherever a call takes one. *)
Definition model_dir_is {L : Lib} (d : string) (e : event L) : Prop :=
  match e with
  | E_prepare_train _ root_dir => root_dir = d
  | E_train_kfold_ensemble a => kf_root_dir a = d
  | E_load_ensemble root_dir _ _ _ => root_dir = d
  | E_eval_ensemble root_dir _ _ _ => root_dir = d
  | _ => True
  end.

(** The device, wherever a call takes one. *)
Definition device_is {L : Lib} (d : device) (e : event L) : Prop :=
  match e with
  | E_train_submodel _ _ _ _ tc => tc_device tc = d
  | E_train_kfold_ensemble a => tc_device (kf_train_config a) = d
  | E_load_ensemble _ dev _ _ => dev = d
  | E_eval_ensemble _ _ dev _ => dev = d
  | _ => True
  end.

(** The fixed settings of the trainings and of the evaluation. *)
Definition training_setup {L : Lib} (e : event L) : Prop :=
  match e with
  | E_train_submodel model _ _ _ tc =>
      tc_epochs tc = HP_EPOCHS /\ tc_amp tc = false
      /\ tc_multi_head tc = false /\ output_dim model = 1
      /\ mlp_hps model = tc_hps tc
  | E_train_kfold_ensemble a =>
      tc_epochs (kf_train_config a) = SUBMODEL_EPOCHS
      /\ tc_amp (kf_train_config a) = false
      /\ tc_multi_head (kf_train_config a) = false
      /\ kf_n_fold a = N_FOLDS
      /\ output_dim (kf_model_constructor a) = 1
      /\ mlp_hps (kf_model_constructor a) = tc_hps (kf_train_config a)
  | E_load_ensemble _ _ _ out_dim => out_dim = 1
  | E_eval_ensemble _ _ _ monte_carlo => monte_carlo = false
  | E_mt_print_metrics _ inverse_transform => inverse_transform = false
  | _ => True
  end.

(** The table the search splits and the ensemble is trained on, and the
    table the ensemble is evaluated on. *)
Definition tables_are {L : Lib} (train_table test_table : list row)
  (e : event L) : Prop :=
  match e with
  | E_train_test_split rows _ _ => rows = train_table
  | E_train_kfold_ensemble a => kf_dataframe a = train_table
  | E_eval_ensemble _ df _ _ => df = test_table
  | _ => True
  end.

(** The tables handed to data preparation and to evaluation hold no graph
    features. *)
Definition graph_feats_empty {L : Lib} (e : event L) : Prop :=
  match e with
  | E_prepare_train df _ => Forall (fun r => graph_feats r = []) df
  | E_eval_ensemble _ df _ _ => Forall (fun r => graph_feats r = []) df
  | _ => True
  end.

(** The fit and validation points of a proxy training hold, between them,
    the [data] column of the table, each entry once. *)
Definition fit_val_cover {L : Lib} (table : list row) (e : event L) : Prop :=
  match e with
  | E_train_submodel _ fit_pts val_pts _ _ =>
      Permutation (fit_pts ++ val_pts) (map data table)
  | _ => True
  end.

(** * Properties *)

(** ** Device selection *)

(** C7.  The value given for [--device] selects the device: ["cpu"] the CPU,
    ["gpu"] the accelerator when it is available and the CPU otherwise; any
    other value is rejected by the parser (exit status 2) before anything
    else runs.  Without the option the default ["gpu"] applies. *)
Theorem device_selector (L : Lib) (v : string) (cuda : bool)
  (master_data : list row) (w : world L) :
  select_device (Some v) cuda =
    (if String.eqb v "cpu" then Ok (Some (DevStr "cpu"))
     else if String.eqb v "gpu"
          then Ok (Some (TorchDevice (if cuda then "cuda" else "cpu")))
          else Raise (SystemExit 2))
  /\ (if String.eqb v "cpu" || String.eqb v "gpu" then True
      else main L (Some v) master_data w = (Raise (SystemExit 2), w, []))
  /\ select_device None cuda = select_device (Some "gpu") cuda.
Proof.
  unfold select_device, parse_args, device_choices, str_in, choose_device.
  cbn [existsb].
  destruct (String.eqb_spec v "cpu") as [-> | Hc].
  - cbn. auto.
  - destruct (String.eqb_spec v "gpu") as [-> | Hg].
    + cbn. auto.
    + cbn. repeat split.
      unfold main, bind, lift, parse_args, device_choices, str_in.
      cbn [existsb].
      destruct (String.eqb_spec v "cpu"); [contradiction |].
      destruct (String.eqb_spec v "gpu"); [contradiction |].
      reflexivity.
Qed.

(** ** Selector dimension *)



Lemma insert_sorted_perm (s : string) (l : list string) :
  Permutation (s :: l) (insert_sorted s l).
Proof.
  induction l as [| t l IH]; cbn; [apply Permutation_refl |].
  destruct (String.ltb s t); [apply Permutation_refl |].
  eapply perm_trans; [apply perm_swap | now apply perm_skip].
Qed.

Lemma sorted_perm (l : list string) : Permutation l (sorted l).
Proof.
  induction l as [| s l IH]; cbn; [constructor |].
  eapply perm_trans; [apply perm_skip, IH | apply insert_sorted_perm].
Qed.

(** ** Rounding of the batch-size bound *)

Lemma batch_lower_bound : py_round ((1 # 4) * inject_Z MAX_BATCH_SIZE) = 12.
Proof. reflexivity. Qed.

(** ** Calls made by a computation *)
Section Calls.
Context {L : Lib}.
Variable P : event L -> Prop.

Lemma emits_ret {A : Type} (a : A) : emits P (ret a).
Proof. intro w. constructor. Qed.

Lemma emits_raise {A : Type} (e : exn) : emits P (@raise L A e).
Proof. intro w. constructor. Qed.

Lemma emits_lift {A : Type} (r : result A) : emits P (lift r).
Proof. intro w. constructor. Qed.

Lemma emits_bind {A B : Type} (m : M L A) (f : A -> M L B) :
  emits P m -> (forall a, emits P (f a)) -> emits P (bind m f).
Proof.
  intros Hm Hf w. unfold bind. specialize (Hm w).
  destruct (m w) as [[[a | e] w1] t1]; cbn in *; [| exact Hm].
  specialize (Hf a w1). destruct (f a w1) as [[r w2] t2]; cbn in *.
  apply Forall_app. split; assumption.
Qed.

Lemma emits_logged {A : Type} (e : event L) (m : M L A) :
  P e -> emits P m -> emits P (logged e m).
Proof.
  intros He Hm w. unfold logged. specialize (Hm w).
  destruct (m w) as [[r w'] t]; cbn in *. constructor; assumption.
Qed.

Lemma emits_call {A : Type} (e : event L)
  (f : world L -> result A * world L) :
  P e -> emits P (call e f).
Proof.
  intros He. apply emits_logged; [exact He |].
  intro w. destruct (f w). constructor.
Qed.

Lemma emits_on_diverged {A : Type} (m : M L A) (fallback : A) :
  emits P m -> emits P (on_diverged m fallback).
Proof.
  intros Hm w. unfold on_diverged. specialize (Hm w).
  destruct (m w) as [[[a | e] w1] t1]; cbn in *; [exact Hm |].
  destruct e; exact Hm.
Qed.

Lemma emits_py_assert (b : bool) : emits P (py_assert b).
Proof. destruct b; [apply emits_ret | apply emits_raise]. Qed.

Lemma emits_use_device (dev : option device) : emits P (use_device dev).
Proof. destruct dev; [apply emits_ret | apply emits_raise]. Qed.

Lemma emits_for_each {A : Type} (l : list A) (body : A -> M L unit) :
  (forall a, emits P (body a)) -> emits P (for_each l body).
Proof.
  intros Hb. induction l as [| a l IH]; cbn.
  - apply emits_ret.
  - apply emits_bind; [apply Hb | intros _; exact IH].
Qed.

Lemma emits_gp_loop (func : point -> M L Q) dims budget :
  (forall x, emits P (func x)) ->
  forall trials g, emits P (gp_loop L func dims budget trials g).
Proof.
  intros Hf. induction budget as [| k IH]; intros trials g; cbn [gp_loop].
  - apply emits_ret.
  - destruct (if (List.length trials <? n_initial_points L)%nat
              then rvs L dims g else ask L dims trials g) as [raw g'].
    apply emits_bind; [apply emits_on_diverged, Hf | intros y; apply IH].
Qed.

Lemma emits_gp_minimize (func : point -> M L Q) dims n_calls seed :
  (forall x, emits P (func x)) ->
  emits P (gp_minimize L func dims n_calls seed).
Proof.
  intros Hf. unfold gp_minimize.
  apply emits_bind; [now apply emits_gp_loop |].
  intros [| t rest]; [apply emits_raise | apply emits_ret].
Qed.

End Calls.

(** One step through the structure of a script fragment. *)
Ltac emits_step :=
  lazymatch goal with
  | |- emits _ (bind _ _) => apply emits_bind; [| intros ?]
  | |- emits _ (let (_, _) := ?v in _) => destruct v
  | |- emits _ (call _ _) => apply emits_call; cbn
  | |- emits _ (logged _ _) => apply emits_logged; [cbn |]
  | |- emits _ (lift _) => apply emits_lift
  | |- emits _ (ret _) => apply emits_ret
  | |- emits _ (raise _) => apply emits_raise
  | |- emits _ (py_assert _) => apply emits_py_assert
  | |- emits _ (use_device _) => apply emits_use_device
  | |- emits _ (for_each _ _) => apply emits_for_each; intros ?
  | |- emits _ (gp_minimize _ _ _ _ _) => apply emits_gp_minimize; intros ?
  | |- emits _ (fun w => (_, _, [])) => intro; constructor
  end.

Ltac emits_auto := repeat emits_step; try reflexivity; try exact I.

(** ** Seeds *)


(** ** Input width *)


(** ** Running a computation *)
Section Runs.
Context {L : Lib}.

Lemma submodel_runs_app (a b : list (event L)) :
  submodel_runs (a ++ b) = (submodel_runs a + submodel_runs b)%nat.
Proof. unfold submodel_runs. now rewrite filter_app, length_app. Qed.

(** How a sequence runs: the first part, then the second from the world the
    first one left, unless the first part raised. *)
Lemma bind_run {A B : Type} (m : M L A) (f : A -> M L B) (w : world L) :
  bind m f w =
    match outcome (m w) with
    | Ok a =>
        (outcome (f a (final_world (m w))),
         final_world (f a (final_world (m w))),
         calls (m w) ++ calls (f a (final_world (m w))))
    | Raise e => (Raise e, final_world (m w), calls (m w))
    end.
Proof.
  unfold bind, outcome, final_world, calls.
  destruct (m w) as [[[a | e] w1] t1]; cbn; [| reflexivity].
  destruct (f a w1) as [[r w2] t2]; reflexivity.
Qed.

Lemma obj_func_hps_raises (x : point) (e : exn) :
  obj_func_hps L x = Raise e -> e <> TrainingDivergedError.
Proof.
  unfold obj_func_hps, getitem, checked.
  destruct (nth_error x 0); [| intros [= <-]; discriminate].
  destruct (nth_error x 1); [| intros [= <-]; discriminate].
  destruct (nth_error x 2); [| intros [= <-]; discriminate].
  destruct (set_values L _ _); [discriminate | intros [= <-]; discriminate].
Qed.

(** An evaluation of the objective that yields a score has trained exactly
    one proxy model; one that raises has trained at most one. *)
Lemma obj_func_trains_once (dev : option device) (sel : Z)
  (fit_pts val_pts : list (option Data)) (sd : ScalerDict L)
  (x : point) (fallback : Q) (w : world L) :
  let r := on_diverged (obj_func L dev sel fit_pts val_pts sd x) fallback w in
  match outcome r with
  | Ok _ => submodel_runs (calls r) = 1%nat
  | Raise _ => (submodel_runs (calls r) <= 1)%nat
  end.
Proof.
  unfold on_diverged, obj_func, bind, lift, use_device, call, logged, ret.
  destruct (obj_func_hps L x) as [h | e] eqn:Hh.
  - destruct dev as [d |]; cbn.
    + destruct (pt_train_submodel L _ _ _ _ _ w) as [[y | e] w1]; cbn.
      * reflexivity.
      * destruct e; cbn; auto.
    + auto.
  - apply obj_func_hps_raises in Hh.
    destruct e; cbn; auto; contradiction.
Qed.

(** The loop spends its whole budget: a search that returns has evaluated
    the objective once per trial of the budget. *)
Lemma gp_loop_spends_budget (func : point -> M L Q)
  (dims : list (pyval * pyval)) :
  (forall x fallback w,
     let r := on_diverged (func x) fallback w in
     match outcome r with
     | Ok _ => submodel_runs (calls r) = 1%nat
     | Raise _ => (submodel_runs (calls r) <= 1)%nat
     end) ->
  forall budget trials g w,
    let r := gp_loop L func dims budget trials g w in
    match outcome r with
    | Ok trials' =>
        submodel_runs (calls r) = budget
        /\ List.length trials' = (List.length trials + budget)%nat
    | Raise _ => (submodel_runs (calls r) <= budget)%nat
    end.
Proof.
  intros Hf. induction budget as [| k IH]; intros trials g w; cbn [gp_loop].
  - cbn. auto with arith.
  - destruct (if (List.length trials <? n_initial_points L)%nat
              then rvs L dims g else ask L dims trials g) as [raw g'].
    rewrite bind_run.
    specialize (Hf (into_space dims raw) (penalised L trials) w). cbn zeta in Hf.
    destruct (outcome (on_diverged (func (into_space dims raw))
                         (penalised L trials) w)) as [y | e].
    + match goal with
      | |- context [gp_loop L func dims k ?ts g' ?w1] =>
          specialize (IH ts g' w1); cbn zeta in IH;
          destruct (outcome (gp_loop L func dims k ts g' w1)) as [ts' | e] eqn:Hk
      end; cbn; unfold submodel_runs in *; rewrite filter_app, length_app.
      * destruct IH as [IH1 IH2]. rewrite length_app in IH2. cbn in IH2.
        split; lia.
      * lia.
    + unfold submodel_runs in *. cbn. lia.
Qed.

End Runs.

Section Search.
Context {L : Lib}.

Lemma logged_run {A : Type} (e : event L) (m : M L A) (w : world L) :
  logged e m w = (outcome (m w), final_world (m w), e :: calls (m w)).
Proof. unfold logged. now destruct (m w) as [[r w'] t]. Qed.

Lemma call_run {A : Type} (e : event L) (f : world L -> result A * world L)
  (w : world L) :
  call e f w = (fst (f w), snd (f w), [e]).
Proof. unfold call, logged. now destruct (f w). Qed.

Lemma split_call_run (df : list row) (w : world L) :
  split_call L df w =
    (train_test_split L df (1 # 5) (map prop df) RANDOM_SEED, w,
     [E_train_test_split df (1 # 5) RANDOM_SEED]).
Proof. reflexivity. Qed.

(** The result of the optimizer, read off the trials of its loop. *)
Lemma gp_minimize_run (func : point -> M L Q) dims n_calls seed w :
  let l := gp_loop L func dims (Z.to_nat n_calls) [] (rng_seed L seed) w in
  gp_minimize L func dims n_calls seed w =
    (match outcome l with
     | Ok [] => Raise (OtherError "n_calls")
     | Ok (t :: rest) =>
         Ok (mkOpt (fst (best t rest)) (snd (best t rest))
               (map fst (t :: rest)) (map snd (t :: rest)))
     | Raise e => Raise e
     end, final_world l, calls l).
Proof.
  cbn zeta. unfold gp_minimize. rewrite bind_run.
  destruct (outcome (gp_loop L func dims (Z.to_nat n_calls) [] _ w))
    as [[| t rest] | e]; cbn; rewrite ?app_nil_r; reflexivity.
Qed.

End Search.

(** ** Trial budget *)

(** C3.  The optimizer is invoked with the budget [n_calls = HP_NCALLS = 10],
    and the search of a property group evaluates the objective exactly that
    many times: when it returns, ten proxy models have been trained, one per
    recorded trial.  A search cut short by an exception has trained at most
    ten. *)
Theorem search_evaluates_budget (L : Lib) (dev : option device) (sel : Z)
  (group_train_data : list row) (sd : ScalerDict L) (w : world L) :
  let r := hp_search L dev sel group_train_data sd w in
  HP_NCALLS = 10
  /\ Forall (budget_is HP_NCALLS) (calls r)
  /\ match outcome r with
     | Ok (opt_obj, _) =>
         submodel_runs (calls r) = 10%nat
         /\ List.length (x_iters opt_obj) = 10%nat
         /\ List.length (func_vals opt_obj) = 10%nat
     | Raise _ => (submodel_runs (calls r) <= 10)%nat
     end.
Proof.
  cbn zeta. split; [reflexivity |]. split.
  - revert w.
    change (emits (budget_is HP_NCALLS)
              (hp_search L dev sel group_train_data sd)).
    unfold hp_search, split_call, obj_func. emits_auto.
  - unfold hp_search. rewrite bind_run, split_call_run.
    cbn [outcome final_world calls fst snd].
    destruct (train_test_split L group_train_data (1 # 5)
                (map prop group_train_data) RANDOM_SEED)
      as [[fit_data val_data] | e]; [| cbn; lia].
    rewrite bind_run, logged_run, gp_minimize_run.
    cbn [outcome final_world calls fst snd].
    pose proof (gp_loop_spends_budget
                  (obj_func L dev sel (map data fit_data) (map data val_data) sd)
                  (hp_space L)
                  (obj_func_trains_once dev sel (map data fit_data)
                     (map data val_data) sd)
                  (Z.to_nat HP_NCALLS) [] (rng_seed L RANDOM_SEED) w) as Hl.
    cbn zeta in Hl.
    destruct (outcome (gp_loop L _ (hp_space L) (Z.to_nat HP_NCALLS) []
                         (rng_seed L RANDOM_SEED) w))
      as [[| t rest] | e].
    + destruct Hl as [_ Hl]. discriminate Hl.
    + destruct Hl as [Hruns Hlen].
      rewrite bind_run. cbn [outcome final_world calls fst snd lift].
      destruct (optimal_hps_of L _) as [h | e];
        cbn [outcome final_world calls fst snd ret x_iters func_vals];
        rewrite ?app_nil_r; unfold submodel_runs in *;
        cbn [filter is_train_submodel app];
        [rewrite !length_map; cbn in Hlen |]; rewrite Hruns;
        repeat split; try assumption; reflexivity || (cbn; lia).
    + cbn. unfold submodel_runs in *. cbn. exact Hl.
Qed.

(** ** Trials of the search *)
Section Trials.
Context {L : Lib}.

(** Each trial the loop appends sits at a point of the declared space, and
    whatever an evaluation of the objective leaves among the calls ([R]) is
    still there when the loop returns. *)
Lemma gp_loop_new_trials (func : point -> M L Q)
  (dims : list (pyval * pyval)) (R : point -> list (event L) -> Prop) :
  (forall x fallback w,
     let r := on_diverged (func x) fallback w in
     match outcome r with Ok _ => R x (calls r) | Raise _ => True end) ->
  (forall x t t', R x t -> R x (t ++ t')) ->
  (forall x t t', R x t -> R x (t' ++ t)) ->
  forall budget trials g w,
    let r := gp_loop L func dims budget trials g w in
    match outcome r with
    | Ok trials' =>
        exists new,
          trials' = trials ++ new
          /\ Forall (fun t => (exists raw, fst t = into_space dims raw)
                              /\ R (fst t) (calls r)) new
    | Raise _ => True
    end.
Proof.
  intros Hf Hr Hl. induction budget as [| k IH]; intros trials g w;
    cbn [gp_loop].
  - cbn. exists []. now rewrite app_nil_r.
  - destruct (if (List.length trials <? n_initial_points L)%nat
              then rvs L dims g else ask L dims trials g) as [raw g'].
    rewrite bind_run.
    specialize (Hf (into_space dims raw) (penalised L trials) w).
    cbn zeta in Hf.
    destruct (outcome (on_diverged (func (into_space dims raw))
                         (penalised L trials) w)) as [y | e]; [| exact I].
    match goal with
    | |- context [gp_loop L func dims k ?ts g' ?w1] =>
        specialize (IH ts g' w1); cbn zeta in IH;
        destruct (outcome (gp_loop L func dims k ts g' w1)) as [ts' | e]
    end; cbn [outcome calls fst snd]; [| exact I].
    destruct IH as (new & -> & Hnew).
    exists ((into_space dims raw, y) :: new). split.
    + now rewrite <- app_assoc.
    + constructor.
      * split; [now exists raw | now apply Hr].
      * eapply Forall_impl; [| exact Hnew].
        intros t [Hin HR]. split; [exact Hin | now apply Hl].
Qed.

(** The trial kept as best has the lowest score of all the trials. *)
Lemma best_is_lowest (t : trial) (rest : list trial) :
  In (best t rest) (t :: rest)
  /\ Forall (fun u => (snd (best t rest) <= snd u)%Q) (t :: rest).
Proof.
  revert t. induction rest as [| u rest IH]; intros t; cbn [best].
  - split; [now left |]. constructor; [apply Qle_refl | constructor].
  - destruct (Qle_bool (snd t) (snd u)) eqn:Hc.
    + apply Qle_bool_iff in Hc. destruct (IH t) as [Hin Hall].
      inversion Hall as [| ? ? Ht Hrest]; subst. split.
      * destruct Hin as [<- | Hin]; [now left | right; now right].
      * constructor; [exact Ht |].
        constructor; [eapply Qle_trans; eassumption | exact Hrest].
    + assert (Hlt : (snd u <= snd t)%Q).
      { destruct (Qlt_le_dec (snd u) (snd t)) as [Hlt | Hle].
        - now apply Qlt_le_weak.
        - apply Qle_bool_iff in Hle. congruence. }
      destruct (IH u) as [Hin Hall].
      inversion Hall as [| ? ? Hu Hrest]; subst. split.
      * destruct Hin as [<- | Hin]; [right; now left | right; now right].
      * constructor; [eapply Qle_trans; eassumption |].
        constructor; [exact Hu | exact Hrest].
Qed.

Lemma in_combine_map {A B : Type} (l : list (A * B)) (p : A * B) :
  In p l -> In p (combine (map fst l) (map snd l)).
Proof.
  induction l as [| [a b] l IH]; cbn; [easy |].
  intros [<- | Hin]; [now left | right; now apply IH].
Qed.

Lemma obj_func_evaluates (dev : option device) (sel : Z)
  (fit_pts val_pts : list (option Data)) (sd : ScalerDict L)
  (x : point) (fallback : Q) (w : world L) :
  let r := on_diverged (obj_func L dev sel fit_pts val_pts sd x) fallback w in
  match outcome r with
  | Ok _ => evaluated_at dev sel fit_pts val_pts sd x (calls r)
  | Raise _ => True
  end.
Proof.
  unfold on_diverged, obj_func, bind, lift, use_device, call, logged, ret,
    evaluated_at, search_input_dim.
  destruct (obj_func_hps L x) as [h | e] eqn:Hh.
  - destruct dev as [d |]; cbn; [| exact I].
    destruct (pt_train_submodel L _ _ _ _ _ w) as [[y | e] w1]; cbn.
    + exists h, d. split; [reflexivity |]. split; [reflexivity | now left].
    + destruct e; cbn; try exact I.
      exists h, d. split; [reflexivity |]. split; [reflexivity | now left].
  - apply obj_func_hps_raises in Hh.
    destruct e; cbn; try exact I; contradiction.
Qed.

(** Every point of the declared space has its batch size in [12, 50]. *)
Lemma into_space_batch (raw : point) :
  batch_within 12 50 (into_space (hp_space L) raw).
Proof.
  unfold batch_within, hp_space. rewrite batch_lower_bound. cbn [into_space nth_error].
  unfold into_dim, MAX_BATCH_SIZE.
  eexists. split; [reflexivity | lia].
Qed.

End Trials.

Section SearchResult.
Context {L : Lib}.

Lemma evaluated_at_app_r dev sel fit_pts val_pts (sd : ScalerDict L) x t t' :
  evaluated_at dev sel fit_pts val_pts sd x t ->
  evaluated_at dev sel fit_pts val_pts sd x (t ++ t').
Proof.
  intros (h & d & Hh & Hd & Hin). exists h, d. split; [exact Hh |].
  split; [exact Hd |]. apply in_or_app. now left.
Qed.

Lemma evaluated_at_app_l dev sel fit_pts val_pts (sd : ScalerDict L) x t t' :
  evaluated_at dev sel fit_pts val_pts sd x t ->
  evaluated_at dev sel fit_pts val_pts sd x (t' ++ t).
Proof.
  intros (h & d & Hh & Hd & Hin). exists h, d. split; [exact Hh |].
  split; [exact Hd |]. apply in_or_app. now right.
Qed.

(** A search that returns: the split it worked on, the trials it made and
    the result it read off them. *)
Lemma hp_search_result (dev : option device) (sel : Z)
  (group_train_data : list row) (sd : ScalerDict L) (w : world L)
  (opt_obj : OptimizeResult) (h : HpConfig L) :
  outcome (hp_search L dev sel group_train_data sd w) = Ok (opt_obj, h) ->
  exists fit_data val_data t rest,
    train_test_split L group_train_data (1 # 5) (map prop group_train_data)
      RANDOM_SEED = Ok (fit_data, val_data)
    /\ opt_obj = mkOpt (fst (best t rest)) (snd (best t rest))
                   (map fst (t :: rest)) (map snd (t :: rest))
    /\ optimal_hps_of L opt_obj = Ok h
    /\ Forall
         (fun u =>
            (exists raw, fst u = into_space (hp_space L) raw)
            /\ evaluated_at dev sel (map data fit_data) (map data val_data) sd
                 (fst u) (calls (hp_search L dev sel group_train_data sd w)))
         (t :: rest).
Proof.
  unfold hp_search. rewrite bind_run, split_call_run.
  cbn [outcome final_world calls fst snd].
  destruct (train_test_split L group_train_data (1 # 5)
              (map prop group_train_data) RANDOM_SEED)
    as [[fit_data val_data] | e]; [| discriminate].
  rewrite bind_run, logged_run, gp_minimize_run.
  cbn [outcome final_world calls fst snd].
  pose proof (gp_loop_new_trials
                (obj_func L dev sel (map data fit_data) (map data val_data) sd)
                (hp_space L)
                (evaluated_at dev sel (map data fit_data) (map data val_data) sd)
                (obj_func_evaluates dev sel (map data fit_data)
                   (map data val_data) sd)
                (evaluated_at_app_r dev sel _ _ sd)
                (evaluated_at_app_l dev sel _ _ sd)
                (Z.to_nat HP_NCALLS) [] (rng_seed L RANDOM_SEED) w) as Hl.
  cbn zeta in Hl.
  destruct (outcome (gp_loop L _ (hp_space L) (Z.to_nat HP_NCALLS) []
                       (rng_seed L RANDOM_SEED) w))
    as [[| t rest] | e]; [discriminate | | discriminate].
  destruct Hl as (new & Hnew & Hall). cbn [app] in Hnew. subst new.
  rewrite bind_run. cbn [outcome final_world calls fst snd lift].
  destruct (optimal_hps_of L _) as [h' | e] eqn:Hh; [| discriminate].
  cbn [outcome final_world calls fst snd ret]. intros [= <- <-].
  exists fit_data, val_data, t, rest. repeat split; try assumption.
  eapply Forall_impl; [| exact Hall].
  intros u [Hraw Hev]. split; [exact Hraw |].
  apply (evaluated_at_app_l dev sel _ _ sd _ _ [_]).
  apply evaluated_at_app_r.
  apply (evaluated_at_app_l dev sel _ _ sd _ _ [_]). exact Hev.
Qed.

End SearchResult.

(** ** The optimal configuration *)

(** A search that returns: its best point is one of the recorded trials and
    has the lowest recorded score, and a proxy model was trained, on the
    device of the run, under the configuration returned as optimal. *)
Lemma hp_search_best_trial (L : Lib) (dev : option device) (sel : Z)
  (group_train_data : list row) (sd : ScalerDict L) (w : world L)
  (opt_obj : OptimizeResult) (optimal_hps : HpConfig L) :
  outcome (hp_search L dev sel group_train_data sd w)
  = Ok (opt_obj, optimal_hps) ->
  In (opt_x opt_obj, opt_fun opt_obj)
    (combine (x_iters opt_obj) (func_vals opt_obj))
  /\ Forall (fun y => (opt_fun opt_obj <= y)%Q) (func_vals opt_obj)
  /\ obj_func_hps L (opt_x opt_obj) = Ok optimal_hps
  /\ (exists fit_pts val_pts d,
        dev = Some d
        /\ In (E_train_submodel
                 (mkMlpOut (N_FEATURES + sel) 1 optimal_hps)
                 fit_pts val_pts sd
                 (mkTrainConfig optimal_hps d false false sh_mse_loss
                    HP_EPOCHS))
             (calls (hp_search L dev sel group_train_data sd w))).
Proof.
  intros Hr.
  destruct (hp_search_result dev sel group_train_data sd w opt_obj
              optimal_hps Hr)
    as (fit_data & val_data & t & rest & Hsplit & -> & Hh & Hall).
  destruct (best_is_lowest t rest) as [Hin Hlow].
  cbn [opt_x opt_fun x_iters func_vals] in *.
  split; [| split; [| split]].
  - rewrite <- surjective_pairing. now apply in_combine_map.
  - apply Forall_map. exact Hlow.
  - exact Hh.
  - rewrite Forall_forall in Hall.
    destruct (Hall _ Hin) as [_ (h' & d & Hh' & Hdev & Hev)].
    change (optimal_hps_of L (mkOpt (fst (best t rest)) (snd (best t rest))
                                (map fst (t :: rest)) (map snd (t :: rest))))
      with (obj_func_hps L (fst (best t rest))) in Hh.
    assert (h' = optimal_hps) by congruence. subst h'.
    now exists (map data fit_data), (map data val_data), d.
Qed.

(** With the device bound, the first call of the ensemble stage is the
    ensemble training, under the configuration the stage is given. *)
Lemma train_and_evaluate_first_call (L : Lib) (d : device) (sel : Z)
  (root_dir : string) (prop_cols : list string) (test_data : list row)
  (train_table : list row) (sd : ScalerDict L) (h : HpConfig L)
  (w : world L) :
  hd_error (calls (train_and_evaluate L (Some d) sel root_dir prop_cols
                     test_data train_table sd h w))
  = Some (E_train_kfold_ensemble
            (mkKfold train_table (mkMlpOut (N_FEATURES + sel) 1 h)
               (mkTrainConfig h d false false sh_mse_loss SUBMODEL_EPOCHS)
               sd root_dir N_FOLDS RANDOM_SEED)).
Proof.
  unfold train_and_evaluate, ensemble_input_dim. cbn [use_device].
  rewrite bind_run. cbn [ret outcome final_world calls fst snd app].
  rewrite bind_run, call_run. cbn [outcome final_world calls fst snd].
  destruct (pt_train_kfold_ensemble L _ w) as [[[] | e] w1]; reflexivity.
Qed.

(** C8.  The configuration built from the optimizer's result and the one
    built inside the objective are the same function of the point
    ([r_learn = 10 ** x[0]], [batch_size = x[1]], [dropout_pct = x[2]],
    [capacity = OPT_CAPACITY], [activation = leaky_relu]).  So in a run of a
    group whose search returns, the best point of the search is one of its
    recorded trials and has the lowest recorded score, the run has trained a
    proxy model under exactly the configuration built from that point, and
    the ensemble training of the run is called with that configuration, in
    its train config and in its model constructor, and with no other. *)
Theorem optimal_config_is_best_trial_config (L : Lib) (dev : option device)
  (train_data test_data : list row) (group : string) (props : list string)
  (w : world L) :
  let prop_cols := sorted props in
  let sel := selector_dim_of (Z.of_nat (List.length prop_cols)) in
  let group_train := rows_isin prop_cols train_data in
  let group_test := rows_isin prop_cols test_data in
  let root_dir := ("example_models/" ++ group)%string in
  let r := run_group L dev train_data test_data group props w in
  (forall opt_obj, optimal_hps_of L opt_obj = obj_func_hps L (opt_x opt_obj))
  /\ (forall x0 x1 x2 tl,
        obj_func_hps L (x0 :: x1 :: x2 :: tl) =
          checked L
            (set_values L (HpConfig_new L)
               [ ("r_learn", HNum (py_pow10 L x0));
                 ("batch_size", HNum x1);
                 ("dropout_pct", HNum x2);
                 ("capacity", HNum (PyInt OPT_CAPACITY));
                 ("activation", HAct leaky_relu) ]))
  /\ match pt_prepare_train L (group_train ++ group_test)
             (morgan_featurizer L) root_dir w with
     | (Raise _, _) => True
     | (Ok (prepared, sd), w1) =>
     match loc prepared (map idx group_train) with
     | Raise _ => True
     | Ok train_table =>
     match loc prepared (map idx group_test) with
     | Raise _ => True
     | Ok _ =>
     match outcome (hp_search L dev sel train_table sd w1) with
     | Raise _ => True
     | Ok (opt_obj, optimal_hps) =>
         In (opt_x opt_obj, opt_fun opt_obj)
           (combine (x_iters opt_obj) (func_vals opt_obj))
         /\ Forall (fun y => (opt_fun opt_obj <= y)%Q) (func_vals opt_obj)
         /\ obj_func_hps L (opt_x opt_obj) = Ok optimal_hps
         /\ (exists fit_pts val_pts d,
               dev = Some d
               /\ In (E_train_submodel
                        (mkMlpOut (N_FEATURES + sel) 1 optimal_hps)
                        fit_pts val_pts sd
                        (mkTrainConfig optimal_hps d false false sh_mse_loss
                           HP_EPOCHS))
                    (calls r)
               /\ In (E_train_kfold_ensemble
                        (mkKfold train_table
                           (mkMlpOut (N_FEATURES + sel) 1 optimal_hps)
                           (mkTrainConfig optimal_hps d false false
                              sh_mse_loss SUBMODEL_EPOCHS)
                           sd root_dir N_FOLDS RANDOM_SEED))
                    (calls r))
         /\ Forall (ensemble_config_is optimal_hps) (calls r)
     end end end end.
Proof.
  cbn zeta. split; [reflexivity |]. split; [reflexivity |].
  unfold run_group. cbn zeta.
  rewrite bind_run, call_run. cbn [outcome final_world calls fst snd].
  destruct (pt_prepare_train L _ (morgan_featurizer L) _ w)
    as [[[prepared sd] | e] w1]; cbn [outcome final_world calls fst snd];
    [| exact I].
  unfold lift. rewrite bind_run. cbn [outcome final_world calls fst snd app].
  destruct (loc prepared (map idx (rows_isin (sorted props) train_data)))
    as [train_table | e]; [| exact I].
  rewrite bind_run. cbn [outcome final_world calls fst snd app].
  destruct (loc prepared (map idx (rows_isin (sorted props) test_data)))
    as [test_table | e]; [| exact I].
  rewrite bind_run.
  destruct (outcome (hp_search L dev _ train_table sd w1))
    as [[opt_obj optimal_hps] | e] eqn:Hs; [| exact I].
  destruct (hp_search_best_trial L dev _ train_table sd w1 opt_obj
              optimal_hps Hs)
    as (Hin & Hlow & Hh & fit_pts & val_pts & d & -> & Hev).
  cbn [outcome final_world calls fst snd].
  split; [exact Hin |]. split; [exact Hlow |]. split; [exact Hh |]. split.
  - exists fit_pts, val_pts, d. split; [reflexivity |]. split.
    + right. apply in_or_app. left. exact Hev.
    + right. apply in_or_app. right.
      match goal with
      | |- In ?e (calls (train_and_evaluate L (Some d) ?sel ?rd ?pc ?te ?tt
                           sd optimal_hps ?w2)) =>
          pose proof (train_and_evaluate_first_call L d sel rd pc te tt sd
                        optimal_hps w2) as Hhd;
          destruct (calls (train_and_evaluate L (Some d) sel rd pc te tt
                             sd optimal_hps w2)) as [| e0 t0];
          [discriminate Hhd | injection Hhd as ->; now left]
      end.
  - constructor; [exact I |]. apply Forall_app. split.
    + generalize w1.
      change (emits (ensemble_config_is optimal_hps)
                (hp_search L (Some d)
                   (selector_dim_of
                      (Z.of_nat (List.length (sorted props))))
                   train_table sd)).
      unfold hp_search, split_call, obj_func. emits_auto.
    + match goal with
      | |- Forall ?P (calls (?m ?w2)) => generalize w2; change (emits P m)
      end.
      unfold train_and_evaluate. emits_auto. now split.
Qed.

(** ** Batch-size range *)

(** C10.  The lower bound of the batch-size dimension is
    [round(0.25 * MAX_BATCH_SIZE) = round(12.5) = 12] (the tie goes to the
    even neighbour, not to 13), the upper bound is 50, and every point the
    optimizer proposes, evaluates or returns has its batch size in the
    integer interval [12, 50]. *)
Theorem batch_size_range (L : Lib) (dev : option device) (sel : Z)
  (group_train_data : list row) (sd : ScalerDict L) (w : world L) :
  py_round ((1 # 4) * inject_Z MAX_BATCH_SIZE) = 12
  /\ nth_error (hp_space L) 1 = Some (PyInt 12, PyInt 50)
  /\ (forall raw, batch_within 12 50 (into_space (hp_space L) raw))
  /\ match outcome (hp_search L dev sel group_train_data sd w) with
     | Ok (opt_obj, _) =>
         Forall (batch_within 12 50) (x_iters opt_obj)
         /\ batch_within 12 50 (opt_x opt_obj)
     | Raise _ => True
     end.
Proof.
  split; [reflexivity |]. split; [reflexivity |].
  split; [apply into_space_batch |].
  destruct (outcome (hp_search L dev sel group_train_data sd w))
    as [[opt_obj h] | e] eqn:Hr; [| exact I].
  destruct (hp_search_result dev sel group_train_data sd w opt_obj h Hr)
    as (fit_data & val_data & t & rest & Hsplit & -> & Hh & Hall).
  cbn [opt_x x_iters].
  assert (Hbatch : Forall (fun u => batch_within 12 50 (fst u)) (t :: rest)).
  { eapply Forall_impl; [| exact Hall].
    intros u [[raw ->] _]. apply into_space_batch. }
  split.
  - apply Forall_map. exact Hbatch.
  - rewrite Forall_forall in Hbatch. apply Hbatch.
    apply (best_is_lowest t rest).
Qed.

(** ** The split *)
Section SplitFacts.
Context {L : Lib}.

Lemma pick_perm {A : Type} (k : nat) (x : A) (l : list A) :
  Permutation (fst (pick k x l) :: snd (pick k x l)) (x :: l).
Proof.
  revert x l. induction k as [| k IH]; intros x l; cbn.
  - destruct l; apply Permutation_refl.
  - destruct l as [| y l]; cbn; [apply Permutation_refl |].
    specialize (IH y l). destruct (pick k y l) as [z r]; cbn in *.
    eapply perm_trans; [apply perm_swap |]. now apply perm_skip.
Qed.

Lemma shuffle_from_perm (fuel : nat) (g : rng L) (l : list nat) :
  Permutation (shuffle_from L fuel g l) l.
Proof.
  revert g l. induction fuel as [| f IH]; intros g l; cbn [shuffle_from].
  - apply Permutation_refl.
  - destruct l as [| x l]; [apply Permutation_refl |].
    destruct (rng_next L g) as [r g'].
    pose proof (pick_perm (r mod S (List.length l)) x l) as Hp.
    destruct (pick (r mod S (List.length l)) x l) as [z rest]; cbn in Hp.
    eapply perm_trans; [apply perm_skip, IH | exact Hp].
Qed.

Lemma insert_by_label_perm (labels : list string) (p : nat) (l : list nat) :
  Permutation (insert_by_label labels p l) (p :: l).
Proof.
  induction l as [| q l IH]; cbn; [apply Permutation_refl |].
  destruct (String.ltb (label_at labels q) (label_at labels p)).
  - eapply perm_trans; [apply perm_skip, IH | apply perm_swap].
  - apply Permutation_refl.
Qed.

Lemma group_by_label_perm (labels : list string) (l : list nat) :
  Permutation (group_by_label labels l) l.
Proof.
  induction l as [| p l IH]; cbn; [constructor |].
  eapply perm_trans; [apply insert_by_label_perm | now apply perm_skip].
Qed.

Lemma draw_perm (n n_test : nat) (l : list nat) (i : nat) :
  Permutation (fst (draw n n_test i l) ++ snd (draw n n_test i l)) l.
Proof.
  revert i. induction l as [| p l IH]; intros i; cbn [draw].
  - constructor.
  - specialize (IH (S i)).
    destruct (draw n n_test (S i) l) as [train test]; cbn [fst snd] in IH.
    destruct (i * n_test / n <? S i * n_test / n)%nat; cbn [fst snd].
    + apply Permutation_sym. eapply perm_trans;
        [| apply Permutation_middle]. apply perm_skip. now apply Permutation_sym.
    + cbn. now apply perm_skip.
Qed.

(** The stride draws exactly the quota accumulated over the positions it
    walks. *)
Lemma draw_count (n n_test : nat) (l : list nat) (i : nat) :
  (0 < n)%nat -> (n_test <= n)%nat ->
  List.length (snd (draw n n_test i l)) =
    ((i + List.length l) * n_test / n - i * n_test / n)%nat.
Proof.
  intros Hn Ht. revert i. induction l as [| p l IH]; intros i; cbn [draw].
  - cbn. rewrite Nat.add_0_r. lia.
  - specialize (IH (S i)).
    destruct (draw n n_test (S i) l) as [train test]; cbn [fst snd] in IH.
    cbn [List.length].
    replace (i + S (List.length l))%nat with (S i + List.length l)%nat by lia.
    assert (Hmono : (i * n_test / n <= S i * n_test / n)%nat).
    { apply Nat.Div0.div_le_mono. lia. }
    assert (Hstep : (S i * n_test / n <= i * n_test / n + 1)%nat).
    { replace (i * n_test / n + 1)%nat with ((i * n_test + 1 * n) / n)%nat
        by (rewrite Nat.div_add; lia).
      apply Nat.Div0.div_le_mono. lia. }
    assert (Hend : (S i * n_test / n <= (S i + List.length l) * n_test / n)%nat).
    { apply Nat.Div0.div_le_mono. nia. }
    destruct (Nat.ltb_spec (i * n_test / n) (S i * n_test / n));
      cbn [fst snd List.length]; lia.
Qed.

Lemma take_rows_app {A : Type} (rows : list A) (a b : list nat) :
  take_rows rows (a ++ b) = take_rows rows a ++ take_rows rows b.
Proof. unfold take_rows. apply flat_map_app. Qed.

Lemma take_rows_perm {A : Type} (rows : list A) (a b : list nat) :
  Permutation a b -> Permutation (take_rows rows a) (take_rows rows b).
Proof. unfold take_rows. apply Permutation_flat_map. Qed.

Lemma take_rows_seq {A : Type} (pre rows : list A) :
  take_rows (pre ++ rows) (seq (List.length pre) (List.length rows)) = rows.
Proof.
  revert pre. induction rows as [| r rows IH]; intros pre; cbn [List.length seq].
  - reflexivity.
  - unfold take_rows. cbn [flat_map].
    rewrite nth_error_app2, Nat.sub_diag by lia. cbn [nth_error app].
    f_equal. specialize (IH (pre ++ [r])).
    rewrite <- app_assoc, length_app in IH. cbn in IH.
    rewrite Nat.add_1_r in IH. exact IH.
Qed.

Lemma take_rows_all {A : Type} (rows : list A) :
  take_rows rows (seq 0 (List.length rows)) = rows.
Proof. exact (take_rows_seq [] rows). Qed.

Lemma take_rows_length {A : Type} (rows : list A) (l : list nat) :
  Forall (fun p => (p < List.length rows)%nat) l ->
  List.length (take_rows rows l) = List.length l.
Proof.
  induction 1 as [| p l Hp _ IH]; [reflexivity |].
  unfold take_rows in *. cbn [flat_map]. rewrite length_app, IH.
  destruct (nth_error rows p) eqn:Hn; [reflexivity |].
  apply nth_error_None in Hn. lia.
Qed.

Lemma ceiling_fifth (z : Z) :
  Qceiling ((1 # 5) * inject_Z z) = - (- z / 5).
Proof.
  unfold Qceiling, Qfloor, Qopp, Qmult, inject_Z. cbn [Qnum Qden].
  now rewrite Z.mul_1_l.
Qed.

(** A fifth of [n] records rounded up. *)
Lemma test_count_fifth (n : nat) :
  (n <= 5 * test_count n (1 # 5) < n + 5)%nat.
Proof.
  unfold test_count. rewrite ceiling_fifth.
  pose proof (Z_div_mod_eq_full (- Z.of_nat n) 5) as Hd.
  pose proof (Z.mod_pos_bound (- Z.of_nat n) 5) as Hm.
  lia.
Qed.

End SplitFacts.

Section SplitResult.
Context {L : Lib}.

(** The positions a successful split returns: every position of the input
    on exactly one side, the test side holding the test quota. *)
Lemma split_positions_ok (labels : list string) (test_size : Q) (seed : Z)
  (train test : list nat) :
  split_positions L labels test_size seed = Ok (train, test) ->
  Permutation (train ++ test) (seq 0 (List.length labels))
  /\ List.length test = test_count (List.length labels) test_size
  /\ (0 < test_count (List.length labels) test_size < List.length labels)%nat.
Proof.
  unfold split_positions.
  set (n := List.length labels). set (n_test := test_count n test_size).
  destruct ((n_test =? 0) || (n <=? n_test))%nat eqn:Hsz; [discriminate |].
  apply orb_false_elim in Hsz. destruct Hsz as [H0 Hn].
  apply Nat.eqb_neq in H0. apply Nat.leb_gt in Hn.
  set (order := group_by_label labels
                  (shuffle L (rng_seed L seed) (seq 0 n))).
  assert (Horder : Permutation order (seq 0 n)).
  { eapply perm_trans; [apply group_by_label_perm |].
    apply shuffle_from_perm. }
  pose proof (draw_perm n n_test order 0) as Hperm.
  pose proof (draw_count n n_test order 0) as Hcount.
  destruct (draw n n_test 0 order) as [tr te]; cbn [fst snd] in *.
  destruct (forallb _ labels); [| discriminate].
  intros [= <- <-]. split; [| split].
  - eapply perm_trans; eassumption.
  - rewrite Hcount by lia.
    rewrite (Permutation_length Horder), length_seq. cbn.
    rewrite Nat.mul_comm, Nat.div_mul by lia.
    rewrite Nat.Div0.div_0_l. lia.
  - lia.
Qed.

Lemma train_test_split_ok {A : Type} (rows : list A) (test_size : Q)
  (stratify : list string) (seed : Z) (train test : list A) :
  train_test_split L rows test_size stratify seed = Ok (train, test) ->
  exists train_pos test_pos,
    train = take_rows rows train_pos
    /\ test = take_rows rows test_pos
    /\ Permutation (train_pos ++ test_pos) (seq 0 (List.length rows))
    /\ List.length test = test_count (List.length rows) test_size
    /\ (List.length train + List.length test = List.length rows)%nat
    /\ (0 < test_count (List.length rows) test_size < List.length rows)%nat.
Proof.
  unfold train_test_split.
  destruct (List.length stratify =? List.length rows)%nat eqn:Hlen;
    [| discriminate].
  apply Nat.eqb_eq in Hlen. cbn [negb].
  destruct (split_positions L stratify test_size seed)
    as [[train_pos test_pos] | e] eqn:Hs; [| discriminate].
  intros [= <- <-].
  apply split_positions_ok in Hs. rewrite Hlen in Hs.
  destruct Hs as (Hperm & Hcount & Hbounds).
  assert (Hvalid : Forall (fun p => (p < List.length rows)%nat)
                     (train_pos ++ test_pos)).
  { apply Forall_forall. intros p Hp.
    apply (Permutation_in _ Hperm), in_seq in Hp. lia. }
  apply Forall_app in Hvalid. destruct Hvalid as [Htr Hte].
  exists train_pos, test_pos.
  rewrite !take_rows_length by assumption.
  repeat split; try assumption; try lia.
  apply Permutation_length in Hperm.
  rewrite length_app, length_seq in Hperm. exact Hperm.
Qed.

End SplitResult.

(** ** Determinism and partition *)

(** C6.  The split is a function of the records, their order and the seed
    alone: whatever the state of the process (its global generators
    included), the script's split of a table returns the same pair and
    leaves the state untouched.  When it succeeds, the two sides are taken
    at disjoint sets of positions which together are all the positions of
    the input, so the train and test rows together are exactly the input
    rows. *)
Theorem split_deterministic_partition (L : Lib) (rows : list row)
  (test_size : Q) (stratify : list string) (seed : Z)
  (train test : list row) (w1 w2 : world L) :
  train_test_split L rows test_size stratify seed = Ok (train, test) ->
  (exists train_pos test_pos,
     train = take_rows rows train_pos
     /\ test = take_rows rows test_pos
     /\ NoDup (train_pos ++ test_pos)
     /\ (forall p, In p train_pos -> ~ In p test_pos)
     /\ Permutation (train_pos ++ test_pos) (seq 0 (List.length rows)))
  /\ Permutation (train ++ test) rows
  /\ outcome (split_call L rows w1) = outcome (split_call L rows w2)
  /\ final_world (split_call L rows w1) = w1
  /\ outcome (split_master L rows w1) = outcome (split_master L rows w2).
Proof.
  intros Hs.
  destruct (train_test_split_ok rows test_size stratify seed train test Hs)
    as (train_pos & test_pos & -> & -> & Hperm & _).
  assert (Hnd : NoDup (train_pos ++ test_pos)).
  { eapply Permutation_NoDup; [apply Permutation_sym, Hperm | apply seq_NoDup]. }
  split; [| split; [| split; [| split]]].
  - exists train_pos, test_pos. repeat split; try assumption.
    intros p Hp Hq. revert Hnd Hp Hq. clear.
    induction train_pos as [| q l IH]; cbn; [easy |].
    intros Hnd [-> | Hp] Hq.
    + inversion Hnd as [| ? ? Hnotin _]; subst.
      apply Hnotin, in_or_app. now right.
    + inversion Hnd; subst. now apply IH.
  - rewrite <- take_rows_app.
    eapply perm_trans; [apply take_rows_perm, Hperm |].
    rewrite take_rows_all. apply Permutation_refl.
  - reflexivity.
  - reflexivity.
  - unfold split_master. rewrite !bind_run, !split_call_run.
    cbn [outcome final_world calls fst snd].
    destruct (train_test_split L rows (1 # 5) (map prop rows) RANDOM_SEED)
      as [[tr te] | e]; [| reflexivity].
    rewrite !bind_run. unfold py_assert.
    destruct (List.length te <? List.length tr)%nat; reflexivity.
Qed.

(** ** The assertion after the split *)

(** C9.  For a table of at least three records on which the stratified 80/20
    split succeeds, the test side holds a fifth of the records rounded up and
    the training side the rest, so the training side is strictly larger and
    the assertion of line 75 passes. *)
Theorem assert_after_split_holds (L : Lib) (master_data : list row)
  (train_data test_data : list row) (w : world L) :
  (3 <= List.length master_data)%nat ->
  train_test_split L master_data (1 # 5) (map prop master_data) RANDOM_SEED
    = Ok (train_data, test_data) ->
  (List.length test_data < List.length train_data)%nat
  /\ outcome (split_master L master_data w) = Ok (train_data, test_data).
Proof.
  intros Hn Hs.
  destruct (train_test_split_ok _ _ _ _ _ _ Hs)
    as (train_pos & test_pos & _ & _ & _ & Hte & Hsum & _).
  pose proof (test_count_fifth (List.length master_data)) as Hfifth.
  assert (Hlt : (List.length test_data < List.length train_data)%nat) by lia.
  split; [exact Hlt |].
  unfold split_master. rewrite bind_run, split_call_run.
  cbn [outcome final_world calls fst snd]. rewrite Hs.
  rewrite bind_run. unfold py_assert.
  apply Nat.ltb_lt in Hlt. rewrite Hlt. reflexivity.
Qed.

(** ** Scaler fitting *)

(** Whatever happens next, the first call of a group is [prepare_train] on
    the training rows of the group followed by its test rows. *)
Lemma run_group_first_call (L : Lib) (dev : option device)
  (train_data test_data : list row) (group : string) (props : list string)
  (w : world L) :
  hd_error (calls (run_group L dev train_data test_data group props w)) =
    Some (E_prepare_train
            (rows_isin (sorted props) train_data ++
             rows_isin (sorted props) test_data)
            ("example_models/" ++ group)%string).
Proof.
  unfold run_group. cbn zeta. rewrite bind_run, call_run.
  cbn [outcome final_world calls fst snd].
  destruct (pt_prepare_train L _ (morgan_featurizer L) _ w) as [[[gd sd] | e] w1];
    reflexivity.
Qed.

(** C1, as the script has it.  The scalers of a group are fitted by the one
    [prepare_train] call, on the training rows of the group followed by its
    test rows; the dictionary that call returns is the one every proxy
    training of the search, the ensemble training and the metrics receive.
    When the call raises, the group stops there. *)
Theorem scaler_fitted_on_group_table (L : Lib) (dev : option device)
  (train_data test_data : list row) (group : string) (props : list string)
  (w : world L) :
  let prop_cols := sorted props in
  let group_data :=
    rows_isin prop_cols train_data ++ rows_isin prop_cols test_data in
  let root_dir := ("example_models/" ++ group)%string in
  let r := run_group L dev train_data test_data group props w in
  match pt_prepare_train L group_data (morgan_featurizer L) root_dir w with
  | (Ok (_, scaler_dict), _) =>
      Forall (scaler_flow group_data scaler_dict) (calls r)
      /\ hd_error (calls r) = Some (E_prepare_train group_data root_dir)
  | (Raise e, w') => r = (Raise e, w', [E_prepare_train group_data root_dir])
  end.
Proof.
  cbn zeta. unfold run_group. cbn zeta.
  rewrite bind_run, call_run.
  cbn [outcome final_world calls fst snd].
  destruct (pt_prepare_train L _ (morgan_featurizer L) _ w)
    as [[[gd sd] | e] w1]; cbn [outcome final_world calls fst snd];
    [| reflexivity].
  split; [| reflexivity].
  constructor; [reflexivity |]. cbn [app].
  match goal with
  | |- Forall ?P (calls (?m w1)) => revert w1; change (emits P m)
  end.
  unfold train_and_evaluate, hp_search, split_call, obj_func.
  emits_auto.
Qed.

(** C1 as stated fails: on the sample table the rows handed to
    [prepare_train] include a row of the test side. *)
Lemma scaler_fit_sees_test_rows :
  ~ Forall (fitted_on_training_only Demo.train_rows Demo.test_rows)
      (calls (run_group Demo.lib (Some (DevStr "cpu")) Demo.train_rows
                Demo.test_rows "electronic" Demo.electronic 0%nat)).
Proof.
  intros H.
  pose proof (run_group_first_call Demo.lib (Some (DevStr "cpu"))
                Demo.train_rows Demo.test_rows "electronic" Demo.electronic
                0%nat) as Hhd.
  destruct (calls (run_group Demo.lib (Some (DevStr "cpu")) Demo.train_rows
                     Demo.test_rows "electronic" Demo.electronic 0%nat))
    as [| e t]; [discriminate Hhd |].
  injection Hhd as ->. apply Forall_inv in H.
  cbn [fitted_on_training_only] in H.
  destruct (H (Demo.mk 14 "[*]CS[*]" "Ea" (19 # 10))) as [_ Hnot].
  - vm_compute. repeat (first [left; reflexivity | right]).
  - apply Hnot. vm_compute. repeat (first [left; reflexivity | right]).
Qed.

(** ** Featurization failures *)



(** ** The theorems at work on the sample table *)

Lemma split_deterministic_partition_witness :
  train_test_split Demo.lib Demo.table (1 # 5) (map prop Demo.table)
    RANDOM_SEED = Ok (Demo.train_rows, Demo.test_rows)
  /\ Permutation (Demo.train_rows ++ Demo.test_rows) Demo.table.
Proof.
  assert (H : train_test_split Demo.lib Demo.table (1 # 5)
                (map prop Demo.table) RANDOM_SEED
              = Ok (Demo.train_rows, Demo.test_rows))
    by (vm_compute; reflexivity).
  split; [exact H |].
  exact (proj1 (proj2 (split_deterministic_partition Demo.lib Demo.table
                         (1 # 5) (map prop Demo.table) RANDOM_SEED
                         Demo.train_rows Demo.test_rows 0%nat 1%nat H))).
Defined.

Lemma assert_after_split_holds_witness :
  (3 <= List.length Demo.table)%nat
  /\ (List.length Demo.test_rows < List.length Demo.train_rows)%nat
  /\ outcome (split_master Demo.lib Demo.table 0%nat)
     = Ok (Demo.train_rows, Demo.test_rows).
Proof.
  assert (Hn : (3 <= List.length Demo.table)%nat) by (vm_compute; lia).
  split; [exact Hn |].
  apply (assert_after_split_holds Demo.lib Demo.table Demo.train_rows
           Demo.test_rows 0%nat Hn).
  vm_compute. reflexivity.
Defined.

(** The script runs to its end on the sample table, with this sequence of
    library calls. *)
Example sample_run_completes :
  outcome (main Demo.lib (Some "gpu") Demo.table 0%nat) = Ok tt
  /\ map event_name (calls (main Demo.lib (Some "gpu") Demo.table 0%nat)) =
     [ "train_test_split"; "mkdir"; "prepare_train"; "train_test_split";
       "gp_minimize";
       "train_submodel"; "train_submodel"; "train_submodel"; "train_submodel";
       "train_submodel"; "train_submodel"; "train_submodel"; "train_submodel";
       "train_submodel"; "train_submodel";
       "train_kfold_ensemble"; "load_ensemble"; "eval_ensemble";
       "mt_print_metrics" ].
Proof. split; vm_compute; reflexivity. Qed.

(** The search on the training side of the sample table returns; its best
    trial has batch size 34. *)
Example sample_search_returns :
  exists opt_obj h,
    outcome (hp_search Demo.lib (Some (DevStr "cpu")) 4 Demo.train_rows [] 0%nat)
      = Ok (opt_obj, h)
    /\ nth_error (opt_x opt_obj) 1 = Some (PyInt 34).
Proof. eexists. eexists. split; vm_compute; reflexivity. Qed.

(** * Further properties of the script *)

(** ** Selection by index label (lines 113-121) *)

Lemma loc_rows (df : list row) (labels : list Z) (rows : list row) :
  loc df labels = Ok rows ->
  rows = flat_map (fun l => filter (fun r => idx r =? l) df) labels.
Proof.
  revert rows. induction labels as [| l ls IH]; intros rows; cbn [loc flat_map].
  - now intros [= <-].
  - destruct (filter (fun r => idx r =? l) df) as [| h hit] eqn:Hf;
      [discriminate |].
    destruct (loc df ls) as [rest | e]; [| discriminate].
    intros [= <-]. now rewrite (IH rest eq_refl).
Qed.

Lemma filter_label_nil (df : list row) (l : Z) :
  filter (fun r => idx r =? l) df = [] <-> ~ In l (map idx df).
Proof.
  induction df as [| r df IH]; cbn; [tauto |].
  destruct (Z.eqb_spec (idx r) l) as [-> | Hne].
  - split; [discriminate | intros H; exfalso; apply H; now left].
  - rewrite IH. split; [intros H [Heq | Hin]; auto | tauto].
Qed.

Lemma loc_present (df : list row) (labels : list Z) :
  Forall (fun l => In l (map idx df)) labels ->
  exists rows, loc df labels = Ok rows.
Proof.
  induction 1 as [| l ls Hl _ [rest IH]]; cbn [loc]; [now exists [] |].
  destruct (filter (fun r => idx r =? l) df) as [| h hit] eqn:Hf.
  - apply filter_label_nil in Hf. contradiction.
  - rewrite IH. eexists. reflexivity.
Qed.

Lemma loc_raises (df : list row) (labels : list Z) (e : exn) :
  loc df labels = Raise e ->
  exists pre l post,
    labels = pre ++ l :: post
    /\ e = KeyError l
    /\ ~ In l (map idx df)
    /\ Forall (fun l' => In l' (map idx df)) pre.
Proof.
  induction labels as [| l ls IH]; cbn [loc]; [discriminate |].
  destruct (filter (fun r => idx r =? l) df) as [| h hit] eqn:Hf.
  - intros [= <-]. apply filter_label_nil in Hf.
    exists [], l, ls. repeat split; auto.
  - assert (Hl : In l (map idx df)).
    { destruct (in_dec Z.eq_dec l (map idx df)) as [Hin | Hout]; [exact Hin |].
      apply filter_label_nil in Hout. congruence. }
    destruct (loc df ls) as [rest | e']; [discriminate |].
    intros [= <-]. destruct (IH eq_refl) as (pre & l' & post & -> & -> & Hn & Hp).
    exists (l :: pre), l', post. repeat split; auto.
Qed.

(** X1.  [df.loc[labels]] returns exactly the rows of the table whose index
    label is among the labels asked for: no other row, and every row carrying
    one of the labels, duplicates of a label included. *)
Theorem loc_selects_by_label (df : list row) (labels : list Z)
  (rows : list row) (r : row) :
  loc df labels = Ok rows ->
  (In r rows <-> In r df /\ In (idx r) labels).
Proof.
  intros H. apply loc_rows in H. subst rows. rewrite in_flat_map. split.
  - intros (l & Hl & Hr). apply filter_In in Hr. destruct Hr as [Hr Heq].
    apply Z.eqb_eq in Heq. subst l. now split.
  - intros [Hr Hl]. exists (idx r). split; [exact Hl |].
    apply filter_In. split; [exact Hr | apply Z.eqb_refl].
Qed.

(** X2.  The selection succeeds exactly when every label asked for is carried
    by some row; otherwise it raises [KeyError] for the first label that no
    row carries. *)
Theorem loc_key_error (df : list row) (labels : list Z) :
  ((exists rows, loc df labels = Ok rows)
   <-> Forall (fun l => In l (map idx df)) labels)
  /\ (forall e, loc df labels = Raise e ->
        exists pre l post,
          labels = pre ++ l :: post
          /\ e = KeyError l
          /\ ~ In l (map idx df)
          /\ Forall (fun l' => In l' (map idx df)) pre).
Proof.
  split; [split |].
  - intros [rows H]. apply Forall_forall. intros l Hl.
    destruct (in_dec Z.eq_dec l (map idx df)) as [Hin | Hout]; [exact Hin |].
    exfalso. revert rows H. induction labels as [| l' ls IH]; [easy |].
    cbn [loc]. intros rows.
    destruct (filter (fun r => idx r =? l') df) as [| h hit] eqn:Hf;
      [discriminate |].
    destruct (loc df ls) as [rest | e] eqn:Hrest; [| discriminate].
    intros _. destruct Hl as [-> | Hl].
    + apply filter_label_nil in Hout. congruence.
    + now apply (IH Hl rest).
  - apply loc_present.
  - apply loc_raises.
Qed.

Lemma filter_label_unique (df : list row) (r : row) :
  NoDup (map idx df) -> In r df ->
  filter (fun r' => idx r' =? idx r) df = [r].
Proof.
  induction df as [| r' df IH]; cbn [map filter]; [easy |].
  intros Hnd Hin. inversion Hnd as [| ? ? Hnotin Hnd']; subst.
  destruct Hin as [-> | Hin].
  - rewrite Z.eqb_refl. f_equal.
    apply filter_label_nil. exact Hnotin.
  - destruct (Z.eqb_spec (idx r') (idx r)) as [Heq | Hne].
    + exfalso. apply Hnotin. rewrite Heq. now apply in_map.
    + now apply IH.
Qed.

Lemma loc_of_rows (df sub : list row) :
  NoDup (map idx df) -> Forall (fun r => In r df) sub ->
  loc df (map idx sub) = Ok sub.
Proof.
  intros Hnd. induction 1 as [| r sub Hr _ IH]; cbn [map loc]; [reflexivity |].
  rewrite (filter_label_unique df r Hnd Hr), IH. reflexivity.
Qed.

(** X3.  The re-split of lines 120-121 undoes the concatenation of line 115:
    when the prepared table carries the index labels of the training rows
    followed by those of the test rows, and no label twice, selecting the
    training labels returns its first rows and selecting the test labels its
    remaining rows, in order. *)
Theorem resplit_recovers_sides (train test prepared : list row) :
  map idx prepared = map idx (train ++ test) ->
  NoDup (map idx prepared) ->
  loc prepared (map idx train) = Ok (firstn (List.length train) prepared)
  /\ loc prepared (map idx test) = Ok (skipn (List.length train) prepared).
Proof.
  intros Hlab Hnd. rewrite map_app in Hlab.
  assert (Htr : map idx (firstn (List.length train) prepared) = map idx train).
  { rewrite <- firstn_map, Hlab, <- (length_map idx train).
    now rewrite firstn_app, Nat.sub_diag, firstn_all, firstn_O, app_nil_r. }
  assert (Hte : map idx (skipn (List.length train) prepared) = map idx test).
  { rewrite <- skipn_map, Hlab, <- (length_map idx train).
    now rewrite skipn_app, Nat.sub_diag, skipn_all, skipn_O. }
  rewrite <- Htr at 1. rewrite <- Hte at 1. split.
  - apply loc_of_rows; [exact Hnd |]. apply Forall_forall.
    intros r Hr. rewrite <- (firstn_skipn (List.length train) prepared).
    apply in_or_app. now left.
  - apply loc_of_rows; [exact Hnd |]. apply Forall_forall.
    intros r Hr. rewrite <- (firstn_skipn (List.length train) prepared).
    apply in_or_app. now right.
Qed.

(** X4.  When index labels repeat, the re-split is not the inverse of the
    concatenation: a row of the prepared table whose label is also the label
    of a training row ends up in the re-split training table, even if it came
    from the test side. *)
Theorem shared_label_joins_training (train prepared rows : list row)
  (t : row) :
  In t prepared ->
  In (idx t) (map idx train) ->
  loc prepared (map idx train) = Ok rows ->
  In t rows.
Proof.
  intros Ht Hl H. apply loc_rows in H. subst rows.
  apply in_flat_map. exists (idx t). split; [exact Hl |].
  apply filter_In. split; [exact Ht | apply Z.eqb_refl].
Qed.

(** ** The properties and rows of a group (lines 94, 108-109) *)

Lemma str_in_iff (x : string) (l : list string) :
  str_in x l = true <-> In x l.
Proof.
  unfold str_in. rewrite existsb_exists. split.
  - intros (y & Hy & Heq). apply String.eqb_eq in Heq. now subst.
  - intros H. exists x. split; [exact H | apply String.eqb_refl].
Qed.

Lemma str_in_sorted (x : string) (l : list string) :
  str_in x (sorted l) = str_in x l.
Proof.
  apply eq_true_iff_eq. rewrite !str_in_iff. split; intros H.
  - eapply Permutation_in; [apply Permutation_sym, sorted_perm | exact H].
  - eapply Permutation_in; [apply sorted_perm | exact H].
Qed.

(** X5.  The rows of a group are the rows of the table whose property is
    listed for the group, in table order; sorting the list of properties
    changes nothing to the selection. *)
Theorem group_rows_selected (props : list string) (df : list row) :
  rows_isin (sorted props) df = filter (fun r => str_in (prop r) props) df
  /\ (forall r, In r (rows_isin (sorted props) df)
                <-> In r df /\ In (prop r) props)
  /\ (forall df', rows_isin (sorted props) (df ++ df')
                  = rows_isin (sorted props) df ++ rows_isin (sorted props) df').
Proof.
  unfold rows_isin. split; [| split].
  - apply filter_ext. intros r. apply str_in_sorted.
  - intros r. rewrite filter_In, str_in_iff. split.
    + intros [Hr Hp]. split; [exact Hr |].
      eapply Permutation_in; [apply Permutation_sym, sorted_perm | exact Hp].
    + intros [Hr Hp]. split; [exact Hr |].
      eapply Permutation_in; [apply sorted_perm | exact Hp].
  - intros df'. apply filter_app.
Qed.

Lemma ltb_leb (s t : string) : String.ltb s t = true -> String.leb s t = true.
Proof.
  unfold String.ltb, String.leb. now destruct (String.compare s t).
Qed.

Lemma not_ltb_leb (s t : string) :
  String.ltb s t = false -> String.leb t s = true.
Proof.
  unfold String.ltb, String.leb. rewrite (String.compare_antisym t s).
  now destruct (String.compare s t).
Qed.

Lemma insert_sorted_ordered (s : string) (l : list string) :
  Sorted (fun a b => String.leb a b = true) l ->
  Sorted (fun a b => String.leb a b = true) (insert_sorted s l).
Proof.
  induction l as [| t l IH]; intros Hl; cbn [insert_sorted].
  - repeat constructor.
  - destruct (String.ltb s t) eqn:Hst.
    + constructor; [exact Hl |]. constructor. now apply ltb_leb.
    + inversion Hl as [| ? ? Hl' Hhd]; subst.
      constructor; [now apply IH |].
      destruct l as [| u l]; cbn [insert_sorted].
      * constructor. now apply not_ltb_leb.
      * destruct (String.ltb s u).
        -- constructor. now apply not_ltb_leb.
        -- constructor. now inversion Hhd.
Qed.

(** X6.  [prop_cols] lists the properties of the group in ascending order of
    code points: it is ordered, and it holds the same properties as the
    group's list, each as many times. *)
Theorem prop_cols_ordered (props : list string) :
  Sorted (fun a b => String.leb a b = true) (group_prop_cols props)
  /\ Permutation props (group_prop_cols props).
Proof.
  unfold group_prop_cols. split; [| apply sorted_perm].
  induction props as [| s l IH]; cbn [sorted]; [constructor |].
  now apply insert_sorted_ordered.
Qed.

(** ** The featurizer (lines 78-85) *)

Lemma str_replace_idem (a b : ascii) (s : string) :
  a <> b -> str_replace a b (str_replace a b s) = str_replace a b s.
Proof.
  intros Hab. induction s as [| c s IH]; cbn [str_replace]; [reflexivity |].
  rewrite IH. f_equal.
  destruct (Ascii.eqb_spec c a) as [-> | Hc].
  - destruct (Ascii.eqb_spec b a); congruence.
  - destruct (Ascii.eqb_spec c a); congruence.
Qed.

Lemma str_replace_get (a b : ascii) (s : string) (n : nat) :
  a <> b -> String.get n (str_replace a b s) <> Some a.
Proof.
  intros Hab. revert n. induction s as [| c s IH]; intros n; cbn [str_replace].
  - destruct n; discriminate.
  - destruct n as [| n]; cbn [String.get]; [| apply IH].
    destruct (Ascii.eqb_spec c a); congruence.
Qed.

Lemma end_mark_replace (c1 c2 : ascii) :
  Ascii.eqb c1 c2 || (is_end_mark c1 && is_end_mark c2) = true <->
  (if Ascii.eqb c1 "*" then "H"%char else c1)
  = (if Ascii.eqb c2 "*" then "H"%char else c2).
Proof.
  unfold is_end_mark.
  destruct (Ascii.eqb_spec c1 "*"); destruct (Ascii.eqb_spec c2 "*");
    destruct (Ascii.eqb_spec c1 "H"); destruct (Ascii.eqb_spec c2 "H");
    destruct (Ascii.eqb_spec c1 c2); subst; cbn;
    split; intros; try reflexivity; try congruence; try discriminate.
Qed.

Lemma same_up_to_ends_replace (s1 s2 : string) :
  same_up_to_ends s1 s2 = true <->
  str_replace "*" "H" s1 = str_replace "*" "H" s2.
Proof.
  revert s2. induction s1 as [| c1 r1 IH]; intros [| c2 r2];
    cbn [same_up_to_ends str_replace]; try (split; discriminate);
    [tauto |].
  rewrite andb_true_iff, IH, end_mark_replace. split.
  - intros [-> ->]. reflexivity.
  - intros [= -> ->]. now split.
Qed.

(** X7.  The featurizer does not tell a chain end written ["*"] from one
    written ["H"]: identifiers that differ only in that give the same tensor,
    or fail alike. *)
Theorem featurizer_ignores_end_marks (L : Lib) (s1 s2 : string) :
  same_up_to_ends s1 s2 = true ->
  morgan_featurizer L s1 = morgan_featurizer L s2.
Proof.
  intros H. apply same_up_to_ends_replace in H.
  unfold morgan_featurizer. now rewrite H.
Qed.

(** X8.  What the featurizer returns: for an identifier that parses, a tensor
    of one row, as long as the fingerprint, holding zeros and ones only; for
    any other identifier the exception [ArgumentError] and nothing else.  The
    parser is never shown a ["*"], and rewriting the ends beforehand changes
    nothing. *)
Theorem featurizer_result (L : Lib) (smile : string) :
  match morgan_featurizer L smile with
  | Ok d =>
      exists mol row,
        MolFromSmiles L (str_replace "*" "H" smile) = Some mol
        /\ x_tensor d = [row]
        /\ List.length row =
           List.length (GetMorganFingerprintAsBitVect L mol 2 N_FEATURES true)
        /\ Forall (fun q => q = 0%Q \/ q = 1%Q) row
  | Raise e =>
      e = ArgumentError
      /\ MolFromSmiles L (str_replace "*" "H" smile) = None
  end
  /\ (forall n, String.get n (str_replace "*" "H" smile) <> Some "*"%char)
  /\ morgan_featurizer L (str_replace "*" "H" smile)
     = morgan_featurizer L smile.
Proof.
  split; [| split].
  - unfold morgan_featurizer.
    destruct (MolFromSmiles L (str_replace "*" "H" smile)) as [mol |];
      [| now split].
    exists mol. eexists. split; [reflexivity |]. split; [reflexivity |].
    split; [apply length_map |].
    apply Forall_forall. intros q Hq. apply in_map_iff in Hq.
    destruct Hq as ([|] & <- & _); cbn; auto.
  - intros n. apply str_replace_get. discriminate.
  - unfold morgan_featurizer. rewrite str_replace_idem; [reflexivity |].
    discriminate.
Qed.

(** ** The start of the script (lines 22-93) *)

Lemma split_master_run (L : Lib) (md : list row) (w : world L) :
  split_master L md w =
    match train_test_split L md (1 # 5) (map prop md) RANDOM_SEED with
    | Ok (tr, te) =>
        if (List.length te <? List.length tr)%nat
        then (Ok (tr, te), w, [E_train_test_split md (1 # 5) RANDOM_SEED])
        else (Raise AssertionError, w,
              [E_train_test_split md (1 # 5) RANDOM_SEED])
    | Raise e => (Raise e, w, [E_train_test_split md (1 # 5) RANDOM_SEED])
    end.
Proof.
  unfold split_master. rewrite bind_run, split_call_run.
  cbn [outcome final_world calls fst snd].
  destruct (train_test_split L md (1 # 5) (map prop md) RANDOM_SEED)
    as [[tr te] | e]; [| reflexivity].
  rewrite bind_run. unfold py_assert.
  destruct (List.length te <? List.length tr)%nat; reflexivity.
Qed.

(** The script from the split on, for an accepted command line. *)
Lemma main_run (L : Lib) (given : option string) (a : string)
  (master_data : list row) (w : world L) :
  parse_args given = Ok a ->
  let w0 := seed_globals L RANDOM_SEED w in
  let dev := choose_device a (cuda_is_available L w0) in
  let md := map (set_graph_feats []) master_data in
  main L given master_data w =
    bind (split_master L md)
      (fun v =>
         let '(train_data, test_data) := v in
         call (E_mkdir "example_models/") (os_mkdir L "example_models/") ;;;
         for_each PROPERTY_GROUPS
           (fun g => run_group L dev train_data test_data (fst g) (snd g)))
      w0.
Proof.
  intros Hp. cbn zeta. unfold main. rewrite bind_run. unfold lift at 1.
  cbn [outcome final_world calls fst snd]. rewrite Hp.
  rewrite bind_run. cbn [outcome final_world calls fst snd].
  rewrite (bind_run (fun w1 => (Ok (choose_device a (cuda_is_available L w1)),
                                w1, []))).
  cbn [outcome final_world calls fst snd app].
  destruct (bind (split_master L _) _ _) as [[r w1] t]. reflexivity.
Qed.

(** X9.  Nothing is created or trained without a valid split: a rejected
    command line ends the script before any call; a split that raises, or one
    whose training side is not strictly larger than its test side, ends it
    right after the split, with the split's exception or [AssertionError];
    only then is the directory of the models created. *)
Theorem nothing_runs_without_a_valid_split (L : Lib) (given : option string)
  (master_data : list row) (w : world L) :
  let md := map (set_graph_feats []) master_data in
  let w0 := seed_globals L RANDOM_SEED w in
  let split := E_train_test_split md (1 # 5) RANDOM_SEED in
  match parse_args given with
  | Raise e => main L given master_data w = (Raise e, w, [])
  | Ok _ =>
      match train_test_split L md (1 # 5) (map prop md) RANDOM_SEED with
      | Raise e => main L given master_data w = (Raise e, w0, [split])
      | Ok (train_data, test_data) =>
          if (List.length test_data <? List.length train_data)%nat
          then exists rest,
                 calls (main L given master_data w)
                 = split :: E_mkdir "example_models/" :: rest
          else main L given master_data w = (Raise AssertionError, w0, [split])
      end
  end.
Proof.
  cbn zeta. destruct (parse_args given) as [a | e] eqn:Hp.
  - rewrite (main_run L given a master_data w Hp). cbn zeta.
    rewrite bind_run, split_master_run.
    destruct (train_test_split L _ (1 # 5) _ RANDOM_SEED) as [[tr te] | e];
      [| reflexivity].
    destruct (List.length te <? List.length tr)%nat; [| reflexivity].
    cbn [outcome final_world calls fst snd].
    rewrite bind_run, call_run. cbn [outcome final_world calls fst snd].
    destruct (os_mkdir L "example_models/" _) as [[[] | e] w1];
      cbn [outcome final_world calls fst snd app]; eexists; reflexivity.
  - unfold main. rewrite bind_run. unfold lift. cbn. rewrite Hp. reflexivity.
Qed.

(** X10.  After a valid split the script creates the directory of the models
    and then handles the one group "electronic": if the directory cannot be
    created (it exists already, say) the script ends with that exception
    after the split and the [mkdir] call, and nothing is trained; otherwise
    its calls and its outcome are those of the group, run on the two sides of
    the split. *)
Theorem run_is_mkdir_then_electronic (L : Lib) (given : option string)
  (master_data : list row) (w : world L) :
  let md := map (set_graph_feats []) master_data in
  let w0 := seed_globals L RANDOM_SEED w in
  let split := E_train_test_split md (1 # 5) RANDOM_SEED in
  match parse_args given,
        train_test_split L md (1 # 5) (map prop md) RANDOM_SEED with
  | Ok a, Ok (train_data, test_data) =>
      if (List.length test_data <? List.length train_data)%nat
      then
        match os_mkdir L "example_models/" w0 with
        | (Raise e, w1) =>
            main L given master_data w
            = (Raise e, w1, [split; E_mkdir "example_models/"])
        | (Ok _, w1) =>
            let g :=
              run_group L (choose_device a (cuda_is_available L w0))
                train_data test_data "electronic"
                ["Egc"; "Egb"; "Ea"; "Ei"] w1 in
            main L given master_data w
            = (outcome g, final_world g,
               split :: E_mkdir "example_models/" :: calls g)
        end
      else True
  | _, _ => True
  end.
Proof.
  cbn zeta. destruct (parse_args given) as [a | e] eqn:Hp; [| exact I].
  destruct (train_test_split L _ (1 # 5) _ RANDOM_SEED) as [[tr te] | e]
    eqn:Hs; [| exact I].
  destruct (List.length te <? List.length tr)%nat eqn:Hlt; [| exact I].
  rewrite (main_run L given a master_data w Hp). cbn zeta.
  rewrite bind_run, split_master_run, Hs, Hlt.
  cbn [outcome final_world calls fst snd].
  rewrite bind_run, call_run. cbn [outcome final_world calls fst snd].
  destruct (os_mkdir L "example_models/" _) as [[[] | e] w1];
    cbn [outcome final_world calls fst snd app]; [| reflexivity].
  unfold PROPERTY_GROUPS. cbn [for_each fst snd].
  rewrite bind_run.
  destruct (run_group L _ tr te "electronic" _ w1) as [[[[] | e] w2] t];
    cbn [outcome final_world calls fst snd ret]; rewrite ?app_nil_r;
    reflexivity.
Qed.

(** ** The stages of a group (lines 94-260) *)

Lemma emits_bind_ret {L : Lib} {A B : Type} (P : event L -> Prop) (a : A)
  (f : A -> M L B) :
  emits P (f a) -> emits P (bind (ret a) f).
Proof.
  intros H w. unfold bind, ret. specialize (H w).
  destruct (f a w) as [[r w'] t]. exact H.
Qed.

Lemma prefix_append (s t : string) : String.prefix s (s ++ t) = true.
Proof.
  induction s as [| c s IH]; cbn; [now destruct t |].
  destruct (ascii_dec c c); [exact IH | contradiction].
Qed.

(** X11.  One directory serves a group from start to end: data preparation,
    ensemble training, loading and evaluation are all given
    ["example_models/" + group], a path under the directory the script
    creates. *)
Theorem group_uses_one_directory (L : Lib) (dev : option device)
  (train_data test_data : list row) (group : string) (props : list string)
  (w : world L) :
  Forall (model_dir_is ("example_models/" ++ group)%string)
    (calls (run_group L dev train_data test_data group props w))
  /\ String.prefix "example_models/" ("example_models/" ++ group)%string = true.
Proof.
  split; [| apply prefix_append].
  revert w.
  change (emits (model_dir_is ("example_models/" ++ group)%string)
            (run_group L dev train_data test_data group props)).
  unfold run_group, train_and_evaluate, hp_search, split_call, obj_func.
  emits_auto.
Qed.

(** X12.  The fixed settings of a run: every proxy training of the search
    lasts [HP_EPOCHS] epochs and the ensemble training [SUBMODEL_EPOCHS],
    over [N_FOLDS] folds; mixed precision and multi-head training are off in
    both, models have one output and are built from the configuration they
    are trained under; the evaluation is without Monte-Carlo sampling and
    the metrics without inverse transform. *)
Theorem run_settings (L : Lib) (given : option string)
  (master_data : list row) (w : world L) :
  Forall training_setup (calls (main L given master_data w)).
Proof.
  revert w. change (emits (@training_setup L) (main L given master_data)).
  unfold main, split_master, run_group, train_and_evaluate, hp_search,
    split_call, obj_func.
  emits_auto; repeat split.
Qed.

(** The calls of a group when the device is bound. *)
Lemma run_group_device (L : Lib) (d : device)
  (train_data test_data : list row) (group : string) (props : list string) :
  emits (device_is d)
    (run_group L (Some d) train_data test_data group props).
Proof.
  unfold run_group, train_and_evaluate, hp_search, split_call, obj_func.
  cbn [use_device].
  repeat first [apply emits_bind_ret | emits_step]; try reflexivity;
    try exact I.
Qed.

(** X13.  The device is bound once, at startup, and never left unbound: for
    an accepted command line it is the string "cpu", or [torch.device] of
    "cuda" or "cpu", and every training, loading and evaluation call of the
    run is given that same device. *)
Theorem one_device_for_all_stages (L : Lib) (given : option string)
  (master_data : list row) (w : world L) :
  match parse_args given with
  | Ok a =>
      exists d,
        choose_device a (cuda_is_available L (seed_globals L RANDOM_SEED w))
        = Some d
        /\ (d = DevStr "cpu" \/ d = TorchDevice "cuda" \/ d = TorchDevice "cpu")
        /\ Forall (device_is d) (calls (main L given master_data w))
  | Raise _ => calls (main L given master_data w) = []
  end.
Proof.
  destruct (parse_args given) as [a | e] eqn:Hp.
  - assert (Ha : a = "cpu" \/ a = "gpu").
    { unfold parse_args, device_choices, str_in in Hp.
      destruct given as [v |]; [| injection Hp as <-; now right].
      cbn [existsb] in Hp.
      destruct (String.eqb_spec v "cpu") as [-> | _];
        [injection Hp as <-; now left |].
      destruct (String.eqb_spec v "gpu") as [-> | _];
        [injection Hp as <-; now right | discriminate]. }
    set (c := cuda_is_available L (seed_globals L RANDOM_SEED w)).
    assert (Hd : exists d, choose_device a c = Some d
                   /\ (d = DevStr "cpu" \/ d = TorchDevice "cuda"
                       \/ d = TorchDevice "cpu")).
    { destruct Ha as [-> | ->]; cbn.
      - eexists. split; [reflexivity | auto].
      - destruct c; eexists; (split; [reflexivity | auto]). }
    destruct Hd as (d & Hd & Hkind). exists d. split; [exact Hd |].
    split; [exact Hkind |].
    rewrite (main_run L given a master_data w Hp). cbn zeta. fold c.
    rewrite Hd.
    match goal with
    | |- Forall _ (calls (?m ?w0)) => generalize w0; change (emits (device_is d) m)
    end.
    unfold split_master, split_call. repeat emits_step; try exact I.
    apply run_group_device.
  - unfold main. rewrite bind_run. unfold lift. cbn. now rewrite Hp.
Qed.

Lemma take_rows_In {A : Type} (rows : list A) (positions : list nat) (r : A) :
  In r (take_rows rows positions) -> In r rows.
Proof.
  unfold take_rows. rewrite in_flat_map. intros (p & _ & Hr).
  destruct (nth_error rows p) as [r' |] eqn:Hn; [| easy].
  destruct Hr as [<- | []]. eapply nth_error_In. eassumption.
Qed.

Lemma rows_isin_Forall (P : row -> Prop) (cols : list string) (df : list row) :
  Forall P df -> Forall P (rows_isin cols df).
Proof.
  unfold rows_isin. rewrite !Forall_forall. intros H r Hr.
  apply filter_In in Hr. now apply H.
Qed.

(** X14.  Whatever the file held, the tables handed to data preparation and
    to the evaluation of the ensemble carry no graph features: line 67
    empties the column, and the split and the selection of the group keep
    the rows as they are. *)
Theorem tables_carry_no_graph_feats (L : Lib) (given : option string)
  (master_data : list row) (w : world L) :
  Forall graph_feats_empty (calls (main L given master_data w)).
Proof.
  destruct (parse_args given) as [a | e] eqn:Hp.
  - rewrite (main_run L given a master_data w Hp). cbn zeta.
    rewrite bind_run, split_master_run.
    set (md := map (set_graph_feats []) master_data).
    assert (Hmd : Forall (fun r => graph_feats r = []) md).
    { subst md. apply Forall_forall. intros r Hr. apply in_map_iff in Hr.
      now destruct Hr as (r' & <- & _). }
    destruct (train_test_split L md (1 # 5) (map prop md) RANDOM_SEED)
      as [[tr te] | e] eqn:Hs; [| repeat constructor].
    destruct (List.length te <? List.length tr)%nat; [| repeat constructor].
    cbn [outcome final_world calls fst snd].
    destruct (train_test_split_ok _ _ _ _ _ _ Hs)
      as (trp & tep & -> & -> & _).
    assert (Htr : Forall (fun r => graph_feats r = []) (take_rows md trp)).
    { rewrite Forall_forall in *. intros r Hr. eapply Hmd, take_rows_In, Hr. }
    assert (Hte : Forall (fun r => graph_feats r = []) (take_rows md tep)).
    { rewrite Forall_forall in *. intros r Hr. eapply Hmd, take_rows_In, Hr. }
    constructor; [exact I |]. cbn [app].
    generalize (choose_device a
                  (cuda_is_available L (seed_globals L RANDOM_SEED w))).
    intros dev.
    match goal with
    | |- Forall _ (calls (?m ?w0)) =>
        generalize w0; change (emits (@graph_feats_empty L) m)
    end.
    unfold run_group, train_and_evaluate, hp_search, split_call, obj_func.
    emits_auto.
    + apply Forall_app. split; now apply rows_isin_Forall.
    + now apply rows_isin_Forall.
  - unfold main. rewrite bind_run. unfold lift. cbn. rewrite Hp. constructor.
Qed.

(** X15.  After data preparation the group works on two tables: the rows of
    the prepared table selected by the index labels of the training rows,
    and the test rows of the group as they were before preparation.  The
    first one is what the search splits into fit and validation rows and
    what the ensemble is trained on; the second one is what the ensemble is
    evaluated on.  A label missing from the prepared table ends the group
    with [KeyError] before any training. *)
Theorem group_tables (L : Lib) (dev : option device)
  (train_data test_data : list row) (group : string) (props : list string)
  (w : world L) :
  let group_train := rows_isin (sorted props) train_data in
  let group_test := rows_isin (sorted props) test_data in
  let root_dir := ("example_models/" ++ group)%string in
  let prepare := E_prepare_train (group_train ++ group_test) root_dir in
  let r := run_group L dev train_data test_data group props w in
  match pt_prepare_train L (group_train ++ group_test) (morgan_featurizer L)
          root_dir w with
  | (Ok (prepared, _), w1) =>
      match loc prepared (map idx group_train) with
      | Raise e => r = (Raise e, w1, [prepare])
      | Ok train_table =>
          match loc prepared (map idx group_test) with
          | Raise e => r = (Raise e, w1, [prepare])
          | Ok _ => Forall (tables_are train_table group_test) (calls r)
          end
      end
  | (Raise _, _) => True
  end.
Proof.
  cbn zeta. unfold run_group. cbn zeta.
  rewrite bind_run, call_run. cbn [outcome final_world calls fst snd].
  destruct (pt_prepare_train L _ (morgan_featurizer L) _ w)
    as [[[prepared sd] | e] w1]; cbn [outcome final_world calls fst snd];
    [| exact I].
  unfold lift. rewrite bind_run. cbn [outcome final_world calls fst snd app].
  destruct (loc prepared (map idx (rows_isin (sorted props) train_data)))
    as [train_table | e]; [| reflexivity].
  rewrite bind_run. cbn [outcome final_world calls fst snd app].
  destruct (loc prepared (map idx (rows_isin (sorted props) test_data)))
    as [test_table | e]; [| reflexivity].
  constructor; [exact I |]. cbn [calls snd].
  match goal with
  | |- Forall ?P (calls (?m w1)) => generalize w1; change (emits P m)
  end.
  unfold train_and_evaluate, hp_search, split_call, obj_func.
  emits_auto.
Qed.

(** ** The lower bound of the batch size (line 177) *)




(** ** The points of the search (lines 127-134) *)

Lemma train_test_split_perm {L : Lib} {A : Type} (rows : list A)
  (test_size : Q) (stratify : list string) (seed : Z) (train test : list A) :
  train_test_split L rows test_size stratify seed = Ok (train, test) ->
  Permutation (train ++ test) rows.
Proof.
  intros Hs.
  destruct (train_test_split_ok rows test_size stratify seed train test Hs)
    as (train_pos & test_pos & -> & -> & Hperm & _).
  rewrite <- take_rows_app.
  eapply perm_trans; [apply take_rows_perm, Hperm |].
  rewrite take_rows_all. apply Permutation_refl.
Qed.

(** X17.  Every proxy training of the search is given the whole training
    table of the group, divided between fitting and validation: the two
    lists of points hold the [data] entry of every row of the table exactly
    once, so no row is left out and none serves on both sides (the split
    being the modelled [train_test_split]). *)
Theorem search_points_cover_table (L : Lib) (dev : option device) (sel : Z)
  (group_train_data : list row) (sd : ScalerDict L) (w : world L) :
  Forall (fit_val_cover group_train_data)
    (calls (hp_search L dev sel group_train_data sd w)).
Proof.
  unfold hp_search. rewrite bind_run, split_call_run.
  cbn [outcome final_world calls fst snd].
  destruct (train_test_split L group_train_data (1 # 5)
              (map prop group_train_data) RANDOM_SEED)
    as [[fit_data val_data] | e] eqn:Hs; [| repeat constructor].
  apply train_test_split_perm in Hs.
  assert (Hcover : Permutation (map data fit_data ++ map data val_data)
                     (map data group_train_data)).
  { rewrite <- map_app. now apply Permutation_map. }
  constructor; [exact I |]. cbn [app calls snd].
  match goal with
  | |- Forall ?P (calls (?m w)) => generalize w; change (emits P m)
  end.
  unfold obj_func. emits_auto. exact Hcover.
Qed.

(** ** The further properties at work on sample rows *)

Lemma loc_selects_by_label_witness :
  loc [Sample.r0; Sample.r1; Sample.r2] [2; 0] = Ok [Sample.r2; Sample.r0]
  /\ (In Sample.r0 [Sample.r2; Sample.r0]
      <-> In Sample.r0 [Sample.r0; Sample.r1; Sample.r2]
          /\ In (idx Sample.r0) [2; 0]).
Proof.
  split; [reflexivity |].
  apply (loc_selects_by_label [Sample.r0; Sample.r1; Sample.r2] [2; 0]
           [Sample.r2; Sample.r0] Sample.r0).
  reflexivity.
Defined.

Lemma resplit_recovers_sides_witness :
  loc [Sample.r0; Sample.r1; Sample.r2] (map idx [Sample.r0; Sample.r1])
  = Ok [Sample.r0; Sample.r1]
  /\ loc [Sample.r0; Sample.r1; Sample.r2] (map idx [Sample.r2])
     = Ok [Sample.r2].
Proof.
  apply (resplit_recovers_sides [Sample.r0; Sample.r1] [Sample.r2]
           [Sample.r0; Sample.r1; Sample.r2]).
  - reflexivity.
  - cbn. repeat constructor; cbn; lia.
Defined.

Lemma shared_label_joins_training_witness :
  loc [Sample.r0; Sample.r0'] (map idx [Sample.r0])
  = Ok [Sample.r0; Sample.r0']
  /\ In Sample.r0' [Sample.r0; Sample.r0'].
Proof.
  split; [reflexivity |].
  apply (shared_label_joins_training [Sample.r0] [Sample.r0; Sample.r0']
           [Sample.r0; Sample.r0'] Sample.r0').
  - cbn. right. left. reflexivity.
  - cbn. left. reflexivity.
  - reflexivity.
Defined.

Lemma featurizer_ignores_end_marks_witness :
  same_up_to_ends "[*]CC[*]" "[H]CC[H]" = true
  /\ morgan_featurizer Demo.lib "[*]CC[*]"
     = morgan_featurizer Demo.lib "[H]CC[H]".
Proof.
  split; [reflexivity |].
  apply (featurizer_ignores_end_marks Demo.lib "[*]CC[*]" "[H]CC[H]").
  reflexivity.
Defined.

